(** * animated-flow-ts: the flow-mesh generation pipeline

    A shallow embedding of [flow/shared] (smoothing of the velocity grid,
    nearest-cell field, particle tracing, stream-line batch, ribbon mesh)
    and of [flow/processors] (main and worker processors).

    JavaScript numbers are reached through the interface [Number], with
    two instances: IEEE 754 binary64 ([float], the numbers the program
    runs on, used to evaluate the code) and the real numbers ([R], exact
    arithmetic, used where a property is one of the mathematics that the
    code implements and rounding is left aside).  Integer-valued
    quantities (grid dimensions, loop counters, array indices, the vertex
    count) are kept in [Z] and [nat]. *)

From Stdlib Require Import ZArith List Lia Bool.
From Stdlib Require Import Floats.
From Stdlib Require Import Reals Lra.
From Stdlib Require Import Sorted.
Import ListNotations.

Set Implicit Arguments.

(** ** Numbers *)

(** The arithmetic the source applies to values of type [number]. *)
Class Number (num : Type) : Type := {
  ofZ : Z -> num;                 (* integer literals and counters *)
  nadd : num -> num -> num;
  nsub : num -> num -> num;
  nmul : num -> num -> num;
  ndiv : num -> num -> num;
  nneg : num -> num;              (* unary minus *)
  Math_sqrt : num -> num;
  nlt : num -> num -> bool;       (* the test [a < b] *)
  fround : num -> num             (* conversion on a store into a Float32Array *)
}.

(** [Math.exp] and [Math.round]; the latter returns an integral number,
    which is kept as an integer.  NaN and the infinities, which
    [Math.round] returns unchanged, have no place in this signature: the
    embedding follows the source where the rounded numbers are finite. *)
Class MathLib (num : Type) : Type := {
  Math_exp : num -> num;
  Math_round : num -> Z
}.

Declare Scope num_scope.
Delimit Scope num_scope with num.
Notation "x + y" := (nadd x y) : num_scope.
Notation "x - y" := (nsub x y) : num_scope.
Notation "x * y" := (nmul x y) : num_scope.
Notation "x / y" := (ndiv x y) : num_scope.
Notation "- x" := (nneg x) : num_scope.
Notation "x <? y" := (nlt x y) : num_scope.

(** *** IEEE 754 binary64 *)

(** Rounding of a binary64 value to the nearest binary32 value (ties to
    even), the conversion of [Math.fround] and of typed-array stores. *)
Definition fround32 (x : float) : float :=
  match Prim2SF x with
  | S754_finite s m e => SF2Prim (binary_round 24 128 s m e)
  | _ => x
  end.

(** The binary64 value nearest to an integer. *)
Definition float_of_Z (z : Z) : float :=
  SF2Prim (binary_normalize 53 1024 z 0 false).

#[export] Instance Number_float : Number float := {|
  ofZ := float_of_Z;
  nadd := PrimFloat.add;
  nsub := PrimFloat.sub;
  nmul := PrimFloat.mul;
  ndiv := PrimFloat.div;
  nneg := PrimFloat.opp;
  Math_sqrt := PrimFloat.sqrt;
  nlt := PrimFloat.ltb;
  fround := fround32
|}.

(** A value is finite when it is neither a NaN nor an infinity. *)
Definition is_finite (x : float) : bool :=
  negb (PrimFloat.is_nan x) && negb (PrimFloat.is_infinity x).

(** *** Exact arithmetic *)

Definition Rltb (a b : R) : bool := if Rlt_dec a b then true else false.

(** Stores are exact in this instance: no rounding takes place. *)
#[export] Instance Number_R : Number R := {|
  ofZ := IZR;
  nadd := Rplus;
  nsub := Rminus;
  nmul := Rmult;
  ndiv := Rdiv;
  nneg := Ropp;
  Math_sqrt := R_sqrt.sqrt;
  nlt := Rltb;
  fround := fun x => x
|}.

(** [Math.round] is the nearest integer, ties towards +infinity. *)
#[export] Instance MathLib_R : MathLib R := {|
  Math_exp := Rtrigo_def.exp;
  Math_round := fun x => Zfloor (x + / 2)
|}.

(** ** Data model (flow/types) *)

Section Types.
Variable num : Type.

Record StreamLineVertex : Type := {
  position : num * num;
  time : num
}.

Record StreamLinesMesh : Type := {
  vertexData : list num;   (* Float32Array *)
  indexData : list Z       (* Uint32Array *)
}.

Definition Field : Type := num -> num -> num * num.

Record FlowData : Type := {
  data : list num;         (* Float32Array, interleaved, row major *)
  columns : Z;
  rows : Z;
  cellSize : num
}.

(** flow/settings *)
Record Settings : Type := {
  smoothing : num;
  segmentLength : num;
  verticesPerLine : nat;
  speedScale : num;
  linesPerVisualization : nat;
  minSpeedThreshold : num;
  minWeightThreshold : num;
  flowProcessingQuanta : num
}.

End Types.

Arguments position {num} _.
Arguments time {num} _.
Arguments vertexData {num} _.
Arguments indexData {num} _.
Arguments data {num} _.
Arguments columns {num} _.
Arguments rows {num} _.
Arguments cellSize {num} _.

(** The values of flow/settings.ts; 0.1 and 0.001 are the quotients 1/10
    and 1/1000 (in binary64 the correctly rounded quotient is the
    literal's value). *)
Definition defaultSettings {num : Type} {NumOps : Number num} : Settings num := {|
  smoothing := ofZ 10;
  segmentLength := ofZ 10;
  verticesPerLine := 100;
  speedScale := (ofZ 1 / ofZ 10)%num;
  linesPerVisualization := 4000;
  minSpeedThreshold := (ofZ 1 / ofZ 1000)%num;
  minWeightThreshold := (ofZ 1 / ofZ 1000)%num;
  flowProcessingQuanta := ofZ 100
|}.

(** Modelled from the spec: [createRand] of core/util is not under src/.
    The spec (4.4, design notes) describes a random source that is
    deterministic once seeded; the closure returned by [createRand()] is
    represented by its hidden state and one call [rand()] by [nextRand]. *)
Class RandomSource (num : Type) : Type := {
  RandState : Type;
  createRand : RandState;
  nextRand : RandState -> num * RandState
}.

(** ** Typed arrays and loops *)

Section Arrays.
Context {A : Type}.

Fixpoint update (i : nat) (v : A) (l : list A) : list A :=
  match l, i with
  | [], _ => []
  | _ :: t, O => v :: t
  | h :: t, S i' => h :: update i' v t
  end.

End Arrays.

(** [for (let i = lo; i < hi; i++) s = body(i, s)] *)
Definition forZ {St : Type} (lo hi : Z) (body : Z -> St -> St) (s : St) : St :=
  fold_left (fun s k => body (lo + Z.of_nat k)%Z s)
            (seq 0 (Z.to_nat (hi - lo))) s.

(** Conversion of an integral number on a store into a Uint32Array. *)
Definition toUint32 (i : Z) : Z := (i mod 2 ^ 32)%Z.

Section FlowShared.
Context {num : Type} {NumOps : Number num}.
Variable settings : Settings num.

Local Open Scope num_scope.

(** A read [a[i]] of a Float32Array.  Within the array it returns the
    stored element.  Outside the array the source reads [undefined],
    which the arithmetic that follows turns into NaN; the model returns
    0 there.  The reads of this module all fall within the array when
    [data.length = 2 * columns * rows], and the statements that depend
    on the values read are made for arrays of that shape. *)
Definition getF32 (a : list num) (i : Z) : num :=
  if ((0 <=? i) && (i <? Z.of_nat (length a)))%Z
  then nth (Z.to_nat i) a (ofZ 0) else ofZ 0.

(** A store [a[i] = v]: the value is rounded to binary32; a store outside
    the array is ignored. *)
Definition setF32 (a : list num) (i : Z) (v : num) : list num :=
  if ((0 <=? i) && (i <? Z.of_nat (length a)))%Z
  then update (Z.to_nat i) (fround v) a else a.

(** *** trace *)

(** One round of the loop of [trace]: either the speed is below the
    threshold and the function returns, or the particle advances;
    [Advanced] records the divisor [v] of the round with the new
    [x], [y] and [t]. *)
Inductive TraceStep : Type :=
| Stopped
| Advanced (v x y t : num).

Definition traceStep (f : Field num) (x y t : num) : TraceStep :=
  let '(vx, vy) := f x y in
  let vx := vx * speedScale settings in
  let vy := vy * speedScale settings in
  let v := Math_sqrt (vx * vx + vy * vy) in
  if v <? minSpeedThreshold settings then Stopped
  else
    let dx := vx / v in
    let dy := vy / v in
    let x := x + dx * segmentLength settings in
    let y := y + dy * segmentLength settings in
    let dt := segmentLength settings / v in
    let t := t + dt in
    Advanced v x y t.

(** The loop of [trace] with [i] rounds left. *)
Fixpoint traceLoop (f : Field num) (cellSize : num) (i : nat) (x y t : num)
    (lineVertices : list (StreamLineVertex num)) : list (StreamLineVertex num) :=
  match i with
  | O => lineVertices
  | S i' =>
      match traceStep f x y t with
      | Stopped => lineVertices
      | Advanced _ x' y' t' =>
          traceLoop f cellSize i' x' y' t'
            (lineVertices ++
               [{| position := (x' * cellSize, y' * cellSize); time := t' |}])
      end
  end.

Definition trace (f : Field num) (x0 y0 cellSize : num)
    : list (StreamLineVertex num) :=
  let x := x0 in
  let y := y0 in
  let t := ofZ 0 in
  traceLoop f cellSize (verticesPerLine settings) x y t
    [{| position := (x * cellSize, y * cellSize); time := t |}].

(** The divisors [v] of the rounds of [trace] that reach the divisions. *)
Fixpoint traceDivisors (f : Field num) (i : nat) (x y t : num) : list num :=
  match i with
  | O => []
  | S i' =>
      match traceStep f x y t with
      | Stopped => []
      | Advanced v x' y' t' => v :: traceDivisors f i' x' y' t'
      end
  end.

(** *** Ribbon mesh: the contribution of one segment *)

(** The divisors of the two divisions made for the segment from [v0]
    to [v1]: the time difference in [speed = 1 / (t1 - t0)] and the
    length [l] in the edge normal. *)
Definition speedDivisor (v0 v1 : StreamLineVertex num) : num :=
  time v1 - time v0.

Definition normalDivisor (v0 v1 : StreamLineVertex num) : num :=
  let '(x0, y0) := position v0 in
  let '(x1, y1) := position v1 in
  Math_sqrt ((x1 - x0) * (x1 - x0) + (y1 - y0) * (y1 - y0)).

(** The 36 numbers pushed on [vertexData] for one segment. *)
Definition segmentVertexData (v0 v1 : StreamLineVertex num)
    (totalTime random : num) : list num :=
  let '(x0, y0) := position v0 in
  let t0 := time v0 in
  let '(x1, y1) := position v1 in
  let t1 := time v1 in
  let speed := ofZ 1 / speedDivisor v0 v1 in
  let l := normalDivisor v0 v1 in
  let ex := - (y1 - y0) / l in
  let ey := (x1 - x0) / l in
  [ x0; y0; ex; ey; ofZ (-1); t0; totalTime; speed; random;
    x0; y0; - ex; - ey; ofZ 1; t0; totalTime; speed; random;
    x1; y1; ex; ey; ofZ (-1); t1; totalTime; speed; random;
    x1; y1; - ex; - ey; ofZ 1; t1; totalTime; speed; random ].

(** The 6 numbers pushed on [indexData] for one segment. *)
Definition segmentIndexData (vertexCount : Z) : list Z :=
  [ vertexCount + 0; vertexCount + 1; vertexCount + 2;
    vertexCount + 1; vertexCount + 3; vertexCount + 2 ]%Z.

(** The local variables [vertexCount], [vertexData] and [indexData]. *)
Record MeshAcc : Type := {
  vertexCount : Z;
  vertexDataAcc : list num;
  indexDataAcc : list Z
}.

Definition pushSegment (acc : MeshAcc) (v0 v1 : StreamLineVertex num)
    (totalTime random : num) : MeshAcc :=
  {| vertexCount := vertexCount acc + 4;
     vertexDataAcc := vertexDataAcc acc ++ segmentVertexData v0 v1 totalTime random;
     indexDataAcc := indexDataAcc acc ++ segmentIndexData (vertexCount acc) |}.

Definition noVertex : StreamLineVertex num :=
  {| position := (ofZ 0, ofZ 0); time := ofZ 0 |}.

(** [for (let i = 1; i < line.length; i++)]: the segment from
    [line[i - 1]] to [line[i]]; both reads are within the line. *)
Definition lineLoop (line : list (StreamLineVertex num))
    (totalTime random : num) (acc : MeshAcc) : MeshAcc :=
  fold_left
    (fun acc i =>
       pushSegment acc (nth (i - 1) line noVertex) (nth i line noVertex)
                   totalTime random)
    (seq 1 (length line - 1)) acc.

(** [line[line.length - 1]], [undefined] for an empty line. *)
Definition lastVertexOf (line : list (StreamLineVertex num))
    : option (StreamLineVertex num) :=
  nth_error line (length line - 1).

(** The returned object: the two arrays converted to typed arrays. *)
Definition toMesh (acc : MeshAcc) : StreamLinesMesh num :=
  {| vertexData := map fround (vertexDataAcc acc);
     indexData := map toUint32 (indexDataAcc acc) |}.

End FlowShared.

(** ** Grid smoothing, field, stream-line batch *)

Section Grid.
Context {num : Type} {NumOps : Number num} {MathOps : MathLib num}.
Variable settings : Settings num.

Local Open Scope num_scope.

(** [new Float32Array(n)]: [n] elements, all zero. *)
Definition newFloat32Array (n : nat) : list num := repeat (ofZ 0) n.

(** [Math.exp((-d * d) / (sigma * sigma))] *)
Definition kernelWeight (sigma : num) (d : Z) : num :=
  Math_exp (ofZ (- d * d) / (sigma * sigma)).

(** The loop over [d] of the horizontal pass for the cell [(x, y)]:
    the final [totalWeight], [s0] and [s1]. *)
Definition horizontalSums (data : list num) (columns : Z) (sigma : num)
    (halfRadius x y : Z) : num * num * num :=
  forZ (- halfRadius) (halfRadius + 1)
    (fun d '(totalWeight, s0, s1) =>
       if ((x + d <? 0) || (x + d >=? columns))%Z
       then (totalWeight, s0, s1)
       else
         let weight := kernelWeight sigma d in
         (totalWeight + weight,
          s0 + weight * getF32 data (2 * (y * columns + (x + d)) + 0),
          s1 + weight * getF32 data (2 * (y * columns + (x + d)) + 1)))
    (ofZ 0, ofZ 0, ofZ 0).

(** The loop over [d] of the vertical pass for the cell [(x, y)]. *)
Definition verticalSums (horizontal : list num) (columns rows : Z)
    (sigma : num) (halfRadius x y : Z) : num * num * num :=
  forZ (- halfRadius) (halfRadius + 1)
    (fun d '(totalWeight, s0, s1) =>
       if ((y + d <? 0) || (y + d >=? rows))%Z
       then (totalWeight, s0, s1)
       else
         let weight := kernelWeight sigma d in
         (totalWeight + weight,
          s0 + weight * getF32 horizontal (2 * ((y + d) * columns + x) + 0),
          s1 + weight * getF32 horizontal (2 * ((y + d) * columns + x) + 1)))
    (ofZ 0, ofZ 0, ofZ 0).

(** [totalWeight < settings.minWeightThreshold ? 0 : s / totalWeight] *)
Definition weightedAverage (totalWeight s : num) : num :=
  if totalWeight <? minWeightThreshold settings then ofZ 0
  else s / totalWeight.

(** The two stores made for the cell [(x, y)]. *)
Definition storeCell (a : list num) (columns x y : Z)
    (sums : num * num * num) : list num :=
  let '(totalWeight, s0, s1) := sums in
  let a := setF32 a (2 * (y * columns + x) + 0) (weightedAverage totalWeight s0) in
  setF32 a (2 * (y * columns + x) + 1) (weightedAverage totalWeight s1).

Definition horizontalPass (data : list num) (columns rows : Z) (sigma : num)
    (halfRadius : Z) : list num :=
  forZ 0 rows
    (fun y horizontal =>
       forZ 0 columns
         (fun x horizontal =>
            storeCell horizontal columns x y
              (horizontalSums data columns sigma halfRadius x y))
         horizontal)
    (newFloat32Array (length data)).

Definition verticalPass (data horizontal : list num) (columns rows : Z)
    (sigma : num) (halfRadius : Z) : list num :=
  forZ 0 columns
    (fun x final =>
       forZ 0 rows
         (fun y final =>
            storeCell final columns x y
              (verticalSums horizontal columns rows sigma halfRadius x y))
         final)
    (newFloat32Array (length data)).

Definition smooth (data : list num) (columns rows : Z) (sigma : num)
    : list num :=
  let halfRadius := Math_round (ofZ 3 * sigma) in
  let horizontal := horizontalPass data columns rows sigma halfRadius in
  let final := verticalPass data horizontal columns rows sigma halfRadius in
  final.

Definition createFlowFieldFromData (flowData : FlowData num) : Field num :=
  let data := smooth (data flowData) (columns flowData) (rows flowData)
                     (smoothing settings) in
  fun x y =>
    let X := Math_round x in
    let Y := Math_round y in
    if ((X <? 0) || (X >=? columns flowData))%Z then (ofZ 0, ofZ 0)
    else if ((Y <? 0) || (Y >=? rows flowData))%Z then (ofZ 0, ofZ 0)
    else (getF32 data (2 * (Y * columns flowData + X) + 0),
          getF32 data (2 * (Y * columns flowData + X) + 1)).

Context {Rand : RandomSource num}.

(** The loop of [getStreamLines] with [i] rounds left; the first draw of
    a round gives the x coordinate of the seed, the second one its y
    coordinate. *)
Fixpoint getStreamLinesLoop (f : Field num) (columns rows : Z)
    (cellSize : num) (i : nat) (rand : RandState)
    (lines : list (list (StreamLineVertex num)))
    : list (list (StreamLineVertex num)) * RandState :=
  match i with
  | O => (lines, rand)
  | S i' =>
      let '(r1, rand) := nextRand rand in
      let '(r2, rand) := nextRand rand in
      let line := trace settings f (ofZ (Math_round (r1 * ofZ columns)))
                        (ofZ (Math_round (r2 * ofZ rows))) cellSize in
      getStreamLinesLoop f columns rows cellSize i' rand (lines ++ [line])
  end.

Definition getStreamLines (f : Field num) (columns rows : Z)
    (cellSize : num) : list (list (StreamLineVertex num)) :=
  let rand := createRand in
  fst (getStreamLinesLoop f columns rows cellSize
         (linesPerVisualization settings) rand []).

End Grid.

(** ** Asynchronous execution *)

(** What a call observes of its environment: the successive readings of
    [performance.now()] and the state of the abort signal at each point
    where it is examined. *)
Record World (num : Type) : Type := {
  performance_now : nat -> num;
  signal_aborted : nat -> bool
}.

Arguments performance_now {num} _ _.
Arguments signal_aborted {num} _ _.

Inductive Rejection : Type :=
| AbortError           (* the call was cancelled *)
| TypeError            (* a property of [undefined] was read *)
| DelegationFailure.   (* the worker could not be reached *)

(** The settled state of the promise returned by an async function. *)
Inductive Promise (A : Type) : Type :=
| Resolved (a : A)
| Rejected (e : Rejection).

Arguments Rejected {A} e.

(** How many clock readings and how many signal examinations came before. *)
Record Sched : Type := {
  clockReads : nat;
  checkpoints : nat
}.

Definition Async (A : Type) : Type := Sched -> Promise (A * Sched).

Definition ret {A : Type} (a : A) : Async A :=
  fun s => Resolved (a, s).

Definition bind {A B : Type} (m : Async A) (k : A -> Async B) : Async B :=
  fun s =>
    match m s with
    | Resolved (a, s') => k a s'
    | Rejected e => Rejected e
    end.

Definition throw {A : Type} (e : Rejection) : Async A :=
  fun _ => Rejected e.

Notation "x <- m ;; k" := (bind m (fun x => k))
  (at level 61, m at next level, right associativity).

Definition run {A : Type} (m : Async A) : Promise A :=
  match m {| clockReads := 0; checkpoints := 0 |} with
  | Resolved (a, _) => Resolved a
  | Rejected e => Rejected e
  end.

Section Driver.
Context {num : Type} {NumOps : Number num} {Rand : RandomSource num}.
Variable settings : Settings num.
Variable world : World num.

Local Open Scope num_scope.

(** [performance.now()] *)
Definition now : Async num :=
  fun s => Resolved (performance_now world (clockReads s),
                     {| clockReads := S (clockReads s);
                        checkpoints := checkpoints s |}).

(** Modelled from the spec: [throwIfAborted] of core/util is not under
    src/.  It examines the signal and throws when the signal is set. *)
Definition throwIfAborted : Async unit :=
  fun s =>
    if signal_aborted world (checkpoints s) then Rejected AbortError
    else Resolved (tt, {| clockReads := clockReads s;
                          checkpoints := S (checkpoints s) |}).

(** Modelled from the spec: [rest] of core/util is not under src/.
    Spec 4.6: a yield point suspends the call; the cancellation signal is
    checked there and, when it is set, the call stops and resolves as
    cancelled. *)
Definition rest : Async unit := throwIfAborted.

(** The loop [for (const line of streamLines)] of
    [createStreamLinesMesh], with the closure [rand] as its state and the
    local [restTime]. *)
Fixpoint meshLoop (streamLines : list (list (StreamLineVertex num)))
    (rand : RandState) (restTime : num) (acc : MeshAcc) : Async MeshAcc :=
  match streamLines with
  | [] => ret acc
  | line :: more =>
      currentTime <- now ;;
      restTime <-
        (if flowProcessingQuanta settings <? currentTime - restTime
         then (_ <- rest ;; ret currentTime)
         else ret restTime) ;;
      let '(random, rand) := nextRand rand in
      match lastVertexOf line with
      | None => throw TypeError
      | Some lastVertex =>
          let totalTime := time lastVertex in
          meshLoop more rand restTime (lineLoop line totalTime random acc)
      end
  end.

(** The part of [createStreamLinesMesh] that follows the computation of
    [streamLines]: the mesh builder. *)
Definition buildMesh (streamLines : list (list (StreamLineVertex num)))
    : Async (StreamLinesMesh num) :=
  let rand := createRand in
  restTime <- now ;;
  acc <- meshLoop streamLines rand restTime
           {| vertexCount := 0; vertexDataAcc := []; indexDataAcc := [] |} ;;
  ret (toMesh acc).

End Driver.

(** ** The pipeline and the processors *)

Section Pipeline.
Context {num : Type} {NumOps : Number num} {MathOps : MathLib num}
        {Rand : RandomSource num}.
Variable settings : Settings num.

Definition createStreamLinesMesh (world : World num)
    (flowData : FlowData num) : Async (StreamLinesMesh num) :=
  let f := createFlowFieldFromData settings flowData in
  let streamLines := getStreamLines settings f (columns flowData)
                       (rows flowData) (cellSize flowData) in
  buildMesh settings world streamLines.

(** flow/processors: [MainFlowProcessor.createStreamLinesMesh] *)
Definition MainFlowProcessor_createStreamLinesMesh (world : World num)
    (flowData : FlowData num) : Promise (StreamLinesMesh num) :=
  run (createStreamLinesMesh world flowData).

(** The storage behind a typed array, as the sequence of its elements;
    [a.buffer] and a view built over a buffer share it. *)
Definition ArrayBuffer (A : Type) : Type := list A.

Record TransferableFlowData : Type := {
  t_buffer : ArrayBuffer num;
  t_columns : Z;
  t_rows : Z;
  t_cellSize : num
}.

Record WorkerResult : Type := {
  vertexBuffer : ArrayBuffer num;
  indexBuffer : ArrayBuffer Z
}.

(** Modelled from the spec: the module workers/flow that answers the
    message "createStreamLinesMesh" is not under src/.  Spec 4.7: the
    isolated context invokes the same pipeline on the grid rebuilt over
    the transferred storage and answers with the storage of the vertex
    and index arrays. *)
Definition workerCreateStreamLinesMesh (workerWorld : World num)
    (message : TransferableFlowData) : Promise WorkerResult :=
  let flowData := {| data := t_buffer message;
                     columns := t_columns message;
                     rows := t_rows message;
                     cellSize := t_cellSize message |} in
  match run (createStreamLinesMesh workerWorld flowData) with
  | Resolved mesh =>
      Resolved {| vertexBuffer := vertexData mesh;
                  indexBuffer := indexData mesh |}
  | Rejected e => Rejected e
  end.

(** flow/processors: [WorkerFlowProcessor.createStreamLinesMesh].
    [connected] tells whether [await this.connection] succeeds; the
    signal of the caller is examined by [throwIfAborted] and, spec 4.7,
    once more when the answer arrives (a call cancelled before its
    response arrives fails). *)
Definition WorkerFlowProcessor_createStreamLinesMesh (connected : bool)
    (world workerWorld : World num) (flowData : FlowData num)
    : Promise (StreamLinesMesh num) :=
  if negb connected then Rejected DelegationFailure
  else if signal_aborted world 0 then Rejected AbortError
  else
    match workerCreateStreamLinesMesh workerWorld
            {| t_buffer := data flowData;
               t_columns := columns flowData;
               t_rows := rows flowData;
               t_cellSize := cellSize flowData |} with
    | Rejected e => Rejected e
    | Resolved result =>
        if signal_aborted world 1 then Rejected AbortError
        else Resolved {| vertexData := vertexBuffer result;
                         indexData := indexBuffer result |}
    end.

End Pipeline.

(** ** Auxiliary definitions for the statements *)

(** The number of segments of a batch: the sum of [k_i - 1]. *)
Definition segmentCount {A : Type} (streamLines : list (list A)) : nat :=
  list_sum (map (fun line => length line - 1) streamLines).

(** The indices of [n] consecutive quads, the first at vertex [b]. *)
Definition quadIndices (b : Z) (n : nat) : list Z :=
  flat_map (fun j => let b' := (b + 4 * Z.of_nat j)%Z in
                     [b'; b' + 1; b' + 2; b' + 1; b' + 3; b' + 2]%Z)
           (seq 0 n).

(** The abort signal is never set. *)
Definition neverAborted {num : Type} (world : World num) : Prop :=
  forall k, signal_aborted world k = false.

(** A random source for examples: every draw is 1/2. *)
Definition halfRand {num : Type} {NumOps : Number num} : RandomSource num := {|
  RandState := unit;
  createRand := tt;
  nextRand := fun s => ((ofZ 1 / ofZ 2)%num, s)
|}.

(** The state of the random source after [k] draws, and its draw number
    [k] (counted from 0). *)
Fixpoint randStateAfter {num : Type} {Rand : RandomSource num} (k : nat)
    : RandState :=
  match k with
  | O => createRand
  | S k' => snd (nextRand (randStateAfter k'))
  end.

Definition draw {num : Type} {Rand : RandomSource num} (k : nat) : num :=
  fst (nextRand (randStateAfter k)).

(** The seed of line number [i] of a batch: [Math.round] of draw [2 i]
    times [columns] and of draw [2 i + 1] times [rows]. *)
Definition seedX {num : Type} {NumOps : Number num} {MathOps : MathLib num}
    {Rand : RandomSource num} (columns : Z) (i : nat) : Z :=
  Math_round (draw (2 * i) * ofZ columns)%num.

Definition seedY {num : Type} {NumOps : Number num} {MathOps : MathLib num}
    {Rand : RandomSource num} (rows : Z) (i : nat) : Z :=
  Math_round (draw (2 * i + 1) * ofZ rows)%num.

(** The vertex pushed by [trace] for a particle at [(x, y)] at time [t]. *)
Definition vertexAt {num : Type} {NumOps : Number num} (cellSize x y t : num)
    : StreamLineVertex num :=
  {| position := (x * cellSize, y * cellSize)%num; time := t |}.

(** The speed [v] that a round of [trace] computes at [(x, y)]. *)
Definition scaledSpeed {num : Type} {NumOps : Number num} (settings : Settings num)
    (f : Field num) (x y : num) : num :=
  let '(vx, vy) := f x y in
  let vx := (vx * speedScale settings)%num in
  let vy := (vy * speedScale settings)%num in
  Math_sqrt (vx * vx + vy * vy)%num.

(** The field that is zero everywhere. *)
Definition zeroField {num : Type} {NumOps : Number num} : Field num :=
  fun _ _ => (ofZ 0, ofZ 0).

(** A world in which the clock stands still and the signal is never set. *)
Definition quietWorld {num : Type} {NumOps : Number num} : World num :=
  {| performance_now := fun _ => ofZ 0; signal_aborted := fun _ => false |}.

(** A world in which the clock stands still and the signal is set from
    the start. *)
Definition abortedWorld {num : Type} {NumOps : Number num} : World num :=
  {| performance_now := fun _ => ofZ 0; signal_aborted := fun _ => true |}.

(** The numbers that the consecutive vertex pairs of a batch of lines
    contribute, every pair of every line in order, none left out; the
    random scalar of a line is the next draw of [rand] and its
    [totalTime] the time of its last vertex. *)
Fixpoint allSegmentsVertexData {num : Type} {NumOps : Number num}
    {Rand : RandomSource num} (streamLines : list (list (StreamLineVertex num)))
    (rand : RandState) : list num :=
  match streamLines with
  | [] => []
  | line :: more =>
      let '(random, rand) := nextRand rand in
      let totalTime := time (nth (length line - 1) line noVertex) in
      flat_map
        (fun i => segmentVertexData (nth (i - 1) line noVertex)
                    (nth i line noVertex) totalTime random)
        (seq 1 (length line - 1))
      ++ allSegmentsVertexData more rand
  end.

(** A line with one degenerate segment: twice the same vertex. *)
Definition degenerateLine {num : Type} {NumOps : Number num}
    : list (StreamLineVertex num) :=
  [ {| position := (ofZ 3, ofZ 4); time := ofZ 5 |};
    {| position := (ofZ 3, ofZ 4); time := ofZ 5 |} ].

(** Two lines, of three vertices and of one vertex. *)
Definition exampleLines {num : Type} {NumOps : Number num}
    : list (list (StreamLineVertex num)) :=
  [ [ {| position := (ofZ 0, ofZ 0); time := ofZ 0 |};
      {| position := (ofZ 3, ofZ 4); time := ofZ 1 |};
      {| position := (ofZ 6, ofZ 8); time := ofZ 3 |} ];
    [ {| position := (ofZ 1, ofZ 1); time := ofZ 0 |} ] ].

(** The cell [(x, y)] of the array [a] holds the two averages of [sums]. *)
Definition cellHolds {num : Type} {NumOps : Number num} (settings : Settings num)
    (a : list num) (columns x y : Z) (sums : num * num * num) : Prop :=
  let '(totalWeight, s0, s1) := sums in
  getF32 a (2 * (y * columns + x) + 0) =
    fround (weightedAverage settings totalWeight s0) /\
  getF32 a (2 * (y * columns + x) + 1) =
    fround (weightedAverage settings totalWeight s1).

(** A grid of 2 by 2 cells that all hold the velocity [(1, 0)]. *)
Definition uniformGrid {num : Type} {NumOps : Number num} : FlowData num :=
  {| data := [ofZ 1; ofZ 0; ofZ 1; ofZ 0; ofZ 1; ofZ 0; ofZ 1; ofZ 0];
     columns := 2;
     rows := 2;
     cellSize := ofZ 1 |}.

(** The field that is [(1, 0)] everywhere. *)
Definition eastField {num : Type} {NumOps : Number num} : Field num :=
  fun _ _ => (ofZ 1, ofZ 0).

(** ** wind/wind-shared: the earlier variant of the pipeline *)

Module Wind.

Section WindShared.
Context {num : Type} {NumOps : Number num}.

Local Open Scope num_scope.

Definition MIN_SPEED_THRESHOLD : num := ofZ 1 / ofZ 1000.
Definition MIN_WEIGHT_THRESHOLD : num := ofZ 1 / ofZ 1000.

(** wind/wind-types: a vertex also carries the distance run so far. *)
Record Vertex : Type := {
  position : num * num;
  distance : num;
  time : num
}.

(** [smooth] of this module is, word for word, [smooth] of flow/shared
    with [MIN_WEIGHT_THRESHOLD] for [settings.minWeightThreshold]; the
    other settings are not used by it. *)
Definition thresholds : Settings num :=
  {| smoothing := ofZ 0;
     segmentLength := ofZ 0;
     verticesPerLine := 0;
     speedScale := ofZ 0;
     linesPerVisualization := 0;
     minSpeedThreshold := MIN_SPEED_THRESHOLD;
     minWeightThreshold := MIN_WEIGHT_THRESHOLD;
     flowProcessingQuanta := ofZ 0 |}.

Definition smooth {MathOps : MathLib num} (data : list num)
    (width height : Z) (sigma : num) : list num :=
  smooth thresholds data width height sigma.


(** The loop [while (c < 100)] of [trace], with [100 - c] rounds to go. *)
Fixpoint traceLoop (f : Field num) (segmentLength : num) (rounds : nat)
    (x y t d : num) (line : list Vertex) : list Vertex :=
  match rounds with
  | O => line
  | S rounds' =>
      let '(vx, vy) := f x y in
      let v := Math_sqrt (vx * vx + vy * vy) in
      if v <? MIN_SPEED_THRESHOLD then line
      else
        let dx := vx / v in
        let dy := vy / v in
        let x := x + dx * segmentLength in
        let y := y + dy * segmentLength in
        let dt := segmentLength / v in
        let t := t + dt in
        let d := d + segmentLength in
        traceLoop f segmentLength rounds' x y t d
          (line ++ [{| position := (x, y); distance := d; time := t |}])
  end.

Definition trace (f : Field num) (x0 y0 segmentLength : num) : list Vertex :=
  let t := ofZ 0 in
  let d := ofZ 0 in
  let x := x0 in
  let y := y0 in
  traceLoop f segmentLength 100 x y t d
    [{| position := (x, y); distance := d; time := t |}].

(** [Math.random] is one stream shared by the whole program: the
    functions that draw from it take its state and return the state
    they leave. *)
Context {Rand : RandomSource num} {MathOps : MathLib num}.



(** The 36 numbers pushed for one segment; the speed factor is 100. *)
Definition segmentVertexData (v0 v1 : Vertex) (totalTime random : num)
    : list num :=
  let '(x0, y0) := position v0 in
  let t0 := time v0 in
  let '(x1, y1) := position v1 in
  let t1 := time v1 in
  let speed := ofZ 100 / (t1 - t0) in
  let l := Math_sqrt ((x1 - x0) * (x1 - x0) + (y1 - y0) * (y1 - y0)) in
  let ex := - (y1 - y0) / l in
  let ey := (x1 - x0) / l in
  [ x0; y0; ex; ey; ofZ (-1); t0; totalTime; speed; random;
    x0; y0; - ex; - ey; ofZ 1; t0; totalTime; speed; random;
    x1; y1; ex; ey; ofZ (-1); t1; totalTime; speed; random;
    x1; y1; - ex; - ey; ofZ 1; t1; totalTime; speed; random ].

Definition noVertex : Vertex :=
  {| position := (ofZ 0, ofZ 0); distance := ofZ 0; time := ofZ 0 |}.

(** The loop over the segments of one line; the accumulator holds
    [vertexCount], [vertexData] and [indexData]. *)
Definition lineLoop (line : list Vertex) (totalTime random : num)
    (acc : @MeshAcc num) : @MeshAcc num :=
  fold_left
    (fun acc i =>
       {| vertexCount := vertexCount acc + 4;
          vertexDataAcc :=
            vertexDataAcc acc ++
            segmentVertexData (nth (i - 1) line noVertex) (nth i line noVertex)
                              totalTime random;
          indexDataAcc := indexDataAcc acc ++ segmentIndexData (vertexCount acc) |})
    (seq 1 (length line - 1)) acc.

(** The loop [for (const line of flowLines)] of [createWindMesh];
    [None] stands for the TypeError thrown when the last vertex of an
    empty line is read. *)
Fixpoint meshLoop (flowLines : list (list Vertex)) (random : RandState)
    (acc : @MeshAcc num) : option (@MeshAcc num * RandState) :=
  match flowLines with
  | [] => Some (acc, random)
  | line :: more =>
      let '(r, random) := nextRand random in
      match nth_error line (length line - 1) with
      | None => None
      | Some lastVertex =>
          let totalTime := time lastVertex in
          meshLoop more random (lineLoop line totalTime r acc)
      end
  end.


End WindShared.

End Wind.

(** ** apps/vortices: the analytic field of the demo *)

Section Vortices.
Context {num : Type} {NumOps : Number num}.

Local Open Scope num_scope.

Definition createVortex (vortexCenter : num * num) : Field num :=
  fun x y =>
    let x := x - fst vortexCenter in
    let y := y - snd vortexCenter in
    let d2 := x * x + y * y in
    (- ofZ 10 * y / d2, ofZ 10 * x / d2).

Definition vortex1 : Field num := createVortex (- ofZ 98, ofZ 39).
Definition vortex2 : Field num := createVortex (- ofZ 98 + ofZ 20, ofZ 39).
Definition vortex3 : Field num :=
  createVortex (- ofZ 98 - ofZ 10, ofZ 39 - ofZ 10).

Definition windVectorField : Field num :=
  fun x y =>
    let v1 := vortex1 x y in
    let v2 := vortex2 x y in
    let v3 := vortex3 x y in
    (fst v1 + fst v2 + fst v3, snd v1 + snd v2 + snd v3).

End Vortices.

(** ** Auxiliary definitions for the two variants *)

(** The settings with which [trace] of flow/shared does what [trace] of
    wind/wind-shared does with a given segment length. *)
Definition windTraceSettings {num : Type} {NumOps : Number num}
    (segmentLength : num) : Settings num :=
  {| smoothing := ofZ 0;
     segmentLength := segmentLength;
     verticesPerLine := 100;
     speedScale := ofZ 1;
     linesPerVisualization := 5000;
     minSpeedThreshold := Wind.MIN_SPEED_THRESHOLD;
     minWeightThreshold := Wind.MIN_WEIGHT_THRESHOLD;
     flowProcessingQuanta := ofZ 0 |}.

(** A vertex of wind/wind-shared without its distance. *)
Definition withoutDistance {num : Type} (v : @Wind.Vertex num)
    : StreamLineVertex num :=
  {| position := Wind.position v; time := Wind.time v |}.


(** ** The library functions on binary64 numbers *)

(** [Math.round] of a finite binary64 number: the integer
    [floor (x + 1/2)], computed exactly from the mantissa and the
    exponent.  NaN and the infinities, which [Math.round] returns
    unchanged, have no integer value: the 0 given for them here stands
    for nothing in the source, and the statements that use this function
    round finite numbers only. *)
Definition Math_round_float (x : float) : Z :=
  match Prim2SF x with
  | S754_finite s m e =>
      let n := if s then Z.neg m else Z.pos m in
      if (0 <=? e)%Z then (n * 2 ^ e)%Z
      else ((2 * n + 2 ^ (- e)) / 2 ^ (1 - e))%Z
  | _ => 0%Z
  end.

(** [Math.exp] is an implementation-approximated function of the
    language, with fixed results at NaN, at the two zeros and at the
    infinities.  This is one such approximation, exact at the fixed
    points: the argument is reduced by a multiple [k] of [ln 2] (held in
    two parts), the exponential of the rest is summed to 16 terms, and
    the sum is scaled by [2 ^ k]. *)
Definition Math_exp_float (x : float) : float :=
  if PrimFloat.is_nan x then nan
  else if (x =? 0)%float then 1%float
  else if (710 <? x)%float then infinity
  else if (x <? -746)%float then 0%float
  else
    let k := Math_round_float (x * 0x1.71547652b82fep+0)%float in
    let kf := float_of_Z k in
    let r := ((x - kf * 0x1.62e42feep-1) - kf * 0x1.a39ef35793c76p-33)%float in
    let p :=
      fold_right (fun n acc => (1 + r / float_of_Z n * acc)%float) 1%float
        (map Z.of_nat (seq 1 16)) in
    Z.ldexp p k.

Definition MathLib_float : MathLib float :=
  {| Math_exp := Math_exp_float; Math_round := Math_round_float |}.

(** ** Examples on binary64 numbers *)


(** A grid of 72 by 2 cells, as a Float32Array of finite numbers: the
    velocity is [(0.011, 0)] in every cell but the last one of each
    row, where it is [(1e30, 0)]. *)
Definition stallData : list float :=
  flat_map
    (fun i => [fround (if (i mod 72 =? 71)%nat then ofZ (10 ^ 30)
                       else (ofZ 11 / ofZ 1000)%num);
               ofZ 0])
    (seq 0 (72 * 2)).

Definition stallGrid : FlowData float :=
  {| data := stallData; columns := 72; rows := 2; cellSize := ofZ 1 |}.

(** The field and the batch of lines that [createStreamLinesMesh] makes
    from this grid, with the settings of the program, when every draw
    of the random source is 1/2. *)
Definition stallField : Field float :=
  createFlowFieldFromData (MathOps := MathLib_float) defaultSettings stallGrid.

Definition stallLines : list (list (StreamLineVertex float)) :=
  getStreamLines (MathOps := MathLib_float) (Rand := halfRand) defaultSettings
    stallField (columns stallGrid) (rows stallGrid) (cellSize stallGrid).

(** With every draw 1/2 each seed on this grid is the point (36, 1); the
    line traced from it. *)
Definition stallLine : list (StreamLineVertex float) :=
  trace defaultSettings stallField (ofZ 36) (ofZ 1) (cellSize stallGrid).

(** * Properties *)

(** ** Lists and loops *)

Lemma quadIndices_S (b : Z) (n : nat) :
  quadIndices b (S n) =
  quadIndices b n ++
  (let b' := (b + 4 * Z.of_nat n)%Z in
   [b'; b' + 1; b' + 2; b' + 1; b' + 3; b' + 2]%Z).
Proof.
  unfold quadIndices. rewrite seq_S, flat_map_app. reflexivity.
Qed.

Lemma quadIndices_app (b : Z) (n m : nat) :
  quadIndices b (n + m) = quadIndices b n ++ quadIndices (b + 4 * Z.of_nat n) m.
Proof.
  induction m as [|m IH].
  - rewrite Nat.add_0_r. simpl. now rewrite app_nil_r.
  - rewrite Nat.add_succ_r, !quadIndices_S, IH, <- app_assoc.
    replace (b + 4 * Z.of_nat n + 4 * Z.of_nat m)%Z
      with (b + 4 * Z.of_nat (n + m))%Z by lia.
    reflexivity.
Qed.

Lemma quadIndices_length (b : Z) (n : nat) :
  length (quadIndices b n) = 6 * n.
Proof.
  induction n as [|n IH]; [reflexivity|].
  rewrite quadIndices_S, length_app, IH. simpl. lia.
Qed.

Lemma quadIndices_bounds (b : Z) (n : nat) :
  Forall (fun i => b <= i < b + 4 * Z.of_nat n)%Z (quadIndices b n).
Proof.
  induction n as [|n IH]; [constructor|].
  rewrite quadIndices_S. apply Forall_app. split.
  - eapply Forall_impl; [|exact IH]. cbv beta. intros; lia.
  - cbv zeta. repeat (apply Forall_cons; [lia|]). apply Forall_nil.
Qed.

Section MeshBuilder.
Context {num : Type} {NumOps : Number num} {Rand : RandomSource num}.
Variable settings : Settings num.

(** The segments pushed for an arbitrary list of index pairs. *)
Lemma pushSegments_fold (g h : nat -> StreamLineVertex num)
    (totalTime random : num) (l : list nat) (acc : @MeshAcc num) :
  let acc' := fold_left (fun acc i => pushSegment acc (g i) (h i) totalTime random)
                        l acc in
  vertexCount acc' = (vertexCount acc + 4 * Z.of_nat (length l))%Z /\
  length (vertexDataAcc acc') = length (vertexDataAcc acc) + 36 * length l /\
  indexDataAcc acc' = indexDataAcc acc ++ quadIndices (vertexCount acc) (length l).
Proof.
  revert acc. induction l as [|i l IH]; intros acc.
  - cbn. repeat split; try lia. now rewrite app_nil_r.
  - destruct (IH (pushSegment acc (g i) (h i) totalTime random)) as (Hc & Hv & Hi).
    cbn [fold_left length]. cbv zeta in *.
    cbn [pushSegment vertexCount vertexDataAcc indexDataAcc] in Hc, Hv, Hi.
    repeat split.
    + rewrite Hc. lia.
    + rewrite Hv, length_app.
      unfold segmentVertexData.
      destruct (position (g i)), (position (h i)). cbn [length]. lia.
    + rewrite Hi, <- app_assoc. f_equal.
      change (S (length l)) with (1 + length l).
      rewrite quadIndices_app. unfold segmentIndexData.
      replace (vertexCount acc + 4 * Z.of_nat 1)%Z with (vertexCount acc + 4)%Z by lia.
      f_equal. unfold quadIndices. cbn [seq flat_map app].
      replace (vertexCount acc + 4 * Z.of_nat 0)%Z with (vertexCount acc) by lia.
      f_equal. lia.
Qed.

Lemma lineLoop_spec (line : list (StreamLineVertex num))
    (totalTime random : num) (acc : @MeshAcc num) :
  let acc' := lineLoop line totalTime random acc in
  vertexCount acc' = (vertexCount acc + 4 * Z.of_nat (length line - 1))%Z /\
  length (vertexDataAcc acc') = length (vertexDataAcc acc) + 36 * (length line - 1) /\
  indexDataAcc acc' = indexDataAcc acc ++ quadIndices (vertexCount acc) (length line - 1).
Proof.
  unfold lineLoop.
  pose proof (pushSegments_fold (fun i => nth (i - 1) line (noVertex (num:=num)))
                (fun i => nth i line (noVertex (num:=num))) totalTime random
                (seq 1 (length line - 1)) acc) as H.
  rewrite length_seq in H. exact H.
Qed.

Lemma lastVertexOf_nonempty (line : list (StreamLineVertex num)) :
  1 <= length line -> exists v, lastVertexOf line = Some v.
Proof.
  intros Hlen. unfold lastVertexOf.
  destruct (nth_error line (length line - 1)) eqn:E; [eauto|].
  apply nth_error_None in E. lia.
Qed.

(** One round of [meshLoop] on a non-empty line either rejects with
    [AbortError] at the checkpoint or goes on with the next lines. *)
Lemma meshLoop_cons (world : World num) (line : list (StreamLineVertex num))
    (more : list (list (StreamLineVertex num))) (rand : RandState)
    (restTime : num) (acc : @MeshAcc num) (s : Sched) :
  meshLoop settings world (line :: more) rand restTime acc s =
  let currentTime := performance_now world (clockReads s) in
  let s1 := {| clockReads := S (clockReads s); checkpoints := checkpoints s |} in
  let proceed restTime s :=
    match lastVertexOf line with
    | None => Rejected TypeError
    | Some lastVertex =>
        meshLoop settings world more (snd (nextRand rand)) restTime
          (lineLoop line (time lastVertex) (fst (nextRand rand)) acc) s
    end in
  if (flowProcessingQuanta settings <? currentTime - restTime)%num
  then if signal_aborted world (checkpoints s) then Rejected AbortError
       else proceed currentTime
              {| clockReads := S (clockReads s); checkpoints := S (checkpoints s) |}
  else proceed restTime s1.
Proof.
  cbn [meshLoop]. unfold bind, now, rest, throwIfAborted, ret, throw. cbv zeta.
  destruct (flowProcessingQuanta settings <? _)%num.
  - cbn. destruct (signal_aborted world (checkpoints s)); [reflexivity|].
    destruct (nextRand rand) as [random rand']. cbn.
    destruct (lastVertexOf line); reflexivity.
  - destruct (nextRand rand) as [random rand']. cbn.
    destruct (lastVertexOf line); reflexivity.
Qed.

Lemma segmentCount_cons {A : Type} (line : list A) (more : list (list A)) :
  segmentCount (line :: more) = (length line - 1) + segmentCount more.
Proof. reflexivity. Qed.

Lemma meshLoop_resolved (world : World num)
    (streamLines : list (list (StreamLineVertex num))) :
  forall (rand : RandState) (restTime : num) (acc acc' : @MeshAcc num)
         (s s' : Sched),
  meshLoop settings world streamLines rand restTime acc s = Resolved (acc', s') ->
  Forall (fun line => 1 <= length line) streamLines /\
  vertexCount acc' = (vertexCount acc + 4 * Z.of_nat (segmentCount streamLines))%Z /\
  length (vertexDataAcc acc') =
    length (vertexDataAcc acc) + 36 * segmentCount streamLines /\
  indexDataAcc acc' =
    indexDataAcc acc ++ quadIndices (vertexCount acc) (segmentCount streamLines).
Proof.
  induction streamLines as [|line more IH]; intros rand restTime acc acc' s s' Hrun.
  - cbn in Hrun. injection Hrun as <- _. cbn. repeat split; try lia.
    + constructor.
    + now rewrite app_nil_r.
  - rewrite meshLoop_cons in Hrun. cbv zeta in Hrun.
    assert (Hstep : exists restTime1 s1 lastVertex,
               lastVertexOf line = Some lastVertex /\
               meshLoop settings world more (snd (nextRand rand)) restTime1
                 (lineLoop line (time lastVertex) (fst (nextRand rand)) acc) s1
               = Resolved (acc', s')).
    { destruct (_ <? _)%num.
      - destruct (signal_aborted world (checkpoints s)); [discriminate|].
        destruct (lastVertexOf line) as [lv|]; [|discriminate]. eauto.
      - destruct (lastVertexOf line) as [lv|]; [|discriminate]. eauto. }
    destruct Hstep as (rt1 & s1 & lv & Hlast & Hmore).
    apply IH in Hmore. destruct Hmore as (Hne & Hc & Hv & Hi).
    destruct (lineLoop_spec line (time lv) (fst (nextRand rand)) acc) as (Lc & Lv & Li).
    rewrite segmentCount_cons. repeat split.
    + constructor; [|exact Hne].
      destruct line; [discriminate Hlast| cbn; lia].
    + rewrite Hc, Lc. lia.
    + rewrite Hv, Lv. lia.
    + rewrite Hi, Li, Lc, <- app_assoc, quadIndices_app. reflexivity.
Qed.


Lemma meshLoop_total (world : World num)
    (streamLines : list (list (StreamLineVertex num))) :
  neverAborted world ->
  Forall (fun line => 1 <= length line) streamLines ->
  forall (rand : RandState) (restTime : num) (acc : @MeshAcc num) (s : Sched),
  exists acc' s',
    meshLoop settings world streamLines rand restTime acc s = Resolved (acc', s').
Proof.
  intros Hquiet Hne. induction Hne as [|line more Hline _ IH];
    intros rand restTime acc s.
  - cbn. unfold ret. eauto.
  - rewrite meshLoop_cons. cbv zeta. rewrite Hquiet.
    destruct (lastVertexOf_nonempty line Hline) as [lv ->].
    destruct (_ <? _)%num; apply IH.
Qed.

(** The accumulated arrays do not depend on the clock or on the signal. *)
Lemma meshLoop_world_independent (world1 world2 : World num)
    (streamLines : list (list (StreamLineVertex num))) :
  forall (rand : RandState) (restTime1 restTime2 : num)
         (acc acc1 acc2 : @MeshAcc num) (s1 s2 s1' s2' : Sched),
  meshLoop settings world1 streamLines rand restTime1 acc s1 = Resolved (acc1, s1') ->
  meshLoop settings world2 streamLines rand restTime2 acc s2 = Resolved (acc2, s2') ->
  acc1 = acc2.
Proof.
  induction streamLines as [|line more IH];
    intros rand rt1 rt2 acc acc1 acc2 s1 s2 s1' s2' H1 H2.
  - cbn in H1, H2. unfold ret in *. congruence.
  - rewrite meshLoop_cons in H1, H2. cbv zeta in H1, H2.
    destruct (lastVertexOf line) as [lv|].
    + destruct (_ <? _)%num in H1;
        [destruct (signal_aborted world1 _); [discriminate|]|];
        (destruct (_ <? _)%num in H2;
           [destruct (signal_aborted world2 _); [discriminate|]|]);
        eapply IH; eassumption.
    + destruct (_ <? _)%num in H1;
        [destruct (signal_aborted world1 _)|]; discriminate.
Qed.

(** A rejection of the loop is a cancellation at a checkpoint or the
    read of the last vertex of an empty line. *)
Lemma meshLoop_rejected (world : World num)
    (streamLines : list (list (StreamLineVertex num))) :
  forall (rand : RandState) (restTime : num) (acc : @MeshAcc num) (s : Sched)
         (e : Rejection),
  meshLoop settings world streamLines rand restTime acc s = Rejected e ->
  (e = AbortError /\ exists k, signal_aborted world k = true) \/
  (e = TypeError /\ Exists (fun line => line = []) streamLines).
Proof.
  induction streamLines as [|line more IH]; intros rand restTime acc s e Hrun.
  - discriminate.
  - rewrite meshLoop_cons in Hrun. cbv zeta in Hrun.
    assert (Hstep : (e = AbortError /\ exists k, signal_aborted world k = true) \/
                    (e = TypeError /\ line = []) \/
                    exists restTime1 s1 lv,
                      meshLoop settings world more (snd (nextRand rand)) restTime1
                        (lineLoop line (time lv) (fst (nextRand rand)) acc) s1
                      = Rejected e).
    { destruct (lastVertexOf line) as [lv|] eqn:Hlast.
      - destruct (_ <? _)%num.
        + destruct (signal_aborted world (checkpoints s)) eqn:Hsig.
          * left. split; [congruence|eauto].
          * right. right. eauto.
        + right. right. eauto.
      - assert (line = []) as ->.
        { destruct line as [|v line]; [reflexivity|].
          apply nth_error_None in Hlast. cbn in Hlast. lia. }
        destruct (_ <? _)%num.
        + destruct (signal_aborted world (checkpoints s)) eqn:Hsig.
          * left. split; [congruence|eauto].
          * right. left. split; congruence.
        + right. left. split; congruence. }
    destruct Hstep as [H|[[He Hl]|(rt1 & s1 & lv & Hmore)]].
    + left. exact H.
    + right. split; [exact He|]. now apply Exists_cons_hd.
    + apply IH in Hmore. destruct Hmore as [H|[He Hex]].
      * left. exact H.
      * right. split; [exact He|]. now apply Exists_cons_tl.
Qed.

(** The settled promise of the mesh builder in terms of its loop. *)
Lemma buildMesh_run (world : World num)
    (streamLines : list (list (StreamLineVertex num))) :
  run (buildMesh settings world streamLines) =
  match meshLoop settings world streamLines createRand (performance_now world 0)
          {| vertexCount := 0; vertexDataAcc := []; indexDataAcc := [] |}
          {| clockReads := 1; checkpoints := 0 |} with
  | Resolved (acc, _) => Resolved (toMesh acc)
  | Rejected e => Rejected e
  end.
Proof.
  unfold run, buildMesh, bind, now, ret. cbn.
  destruct (meshLoop _ _ _ _ _ _ _) as [[acc s']|e]; reflexivity.
Qed.

Lemma toUint32_bounds (n i : Z) :
  (0 <= i < n)%Z -> (0 <= toUint32 i < n)%Z.
Proof.
  intros Hi. unfold toUint32.
  destruct (Z_lt_le_dec i (2 ^ 32)) as [Hsmall|Hbig].
  - rewrite Z.mod_small by lia. lia.
  - pose proof (Z.mod_pos_bound i (2 ^ 32) ltac:(lia)). lia.
Qed.

(** On lines that all have a vertex, the mesh builder returns a mesh
    when it is not cancelled. *)
Lemma buildMesh_total (world : World num)
    (streamLines : list (list (StreamLineVertex num))) :
  neverAborted world ->
  Forall (fun line => 1 <= length line) streamLines ->
  exists mesh, run (buildMesh settings world streamLines) = Resolved mesh.
Proof.
  intros Hquiet Hne. rewrite buildMesh_run.
  destruct (meshLoop_total Hquiet Hne createRand (performance_now world 0)
              {| vertexCount := 0; vertexDataAcc := []; indexDataAcc := [] |}
              {| clockReads := 1; checkpoints := 0 |}) as (acc & s' & ->).
  eauto.
Qed.

(** C1: on lines that all have at least one vertex the mesh builder,
    when it is not cancelled, returns a mesh; a returned mesh has
    [4 * sum (k_i - 1)] vertices of 9 numbers, [6 * sum (k_i - 1)]
    indices, all below the vertex count, and the indices pushed for the
    segment that starts at running vertex count [b] are
    [b, b+1, b+2, b+1, b+3, b+2] (stored unchanged in the Uint32Array
    while the vertex count is at most 2^32). *)
Theorem buildMesh_counts (world : World num)
    (streamLines : list (list (StreamLineVertex num))) :
  Forall (fun line => 1 <= length line) streamLines ->
  (neverAborted world ->
   exists mesh, run (buildMesh settings world streamLines) = Resolved mesh) /\
  (forall mesh,
     run (buildMesh settings world streamLines) = Resolved mesh ->
     let n := segmentCount streamLines in
     length (vertexData mesh) = 9 * (4 * n) /\
     length (indexData mesh) = 6 * n /\
     Forall (fun i => 0 <= i < 4 * Z.of_nat n)%Z (indexData mesh) /\
     indexData mesh = map toUint32 (quadIndices 0 n) /\
     ((4 * Z.of_nat n <= 2 ^ 32)%Z -> indexData mesh = quadIndices 0 n)).
Proof.
  intros Hne. split.
  - intros Hquiet. now apply buildMesh_total.
  - intros mesh Hrun n. rewrite buildMesh_run in Hrun.
    destruct (meshLoop _ _ _ _ _ _ _) as [[acc s']|e] eqn:Hloop; [|discriminate].
    injection Hrun as <-.
    apply meshLoop_resolved in Hloop. destruct Hloop as (_ & Hc & Hv & Hi).
    cbn [vertexCount vertexDataAcc indexDataAcc length app] in Hc, Hv, Hi.
    fold n in Hc, Hv, Hi.
    assert (Hidx : indexData (toMesh acc) = map toUint32 (quadIndices 0 n)).
    { cbn. now rewrite Hi. }
    repeat split.
    + cbn. rewrite length_map, Hv. lia.
    + rewrite Hidx, length_map, quadIndices_length. reflexivity.
    + rewrite Hidx. apply Forall_map.
      eapply Forall_impl; [|apply (quadIndices_bounds 0 n)].
      cbv beta. intros i Hi'. apply toUint32_bounds. lia.
    + exact Hidx.
    + intros Hfit. rewrite Hidx.
      rewrite <- (map_id (quadIndices 0 n)) at 2.
      apply map_ext_in. intros i Hin.
      pose proof (quadIndices_bounds 0 n) as Hb.
      rewrite Forall_forall in Hb. specialize (Hb i Hin).
      unfold toUint32. apply Z.mod_small. lia.
Qed.

End MeshBuilder.

(** ** Chains of consecutive vertices *)

Section Chains.
Context {A : Type}.
Variable P : A -> A -> Prop.

Lemma LocallySorted_snoc (l : list A) (a b : A) :
  LocallySorted P (l ++ [a]) -> P a b -> LocallySorted P ((l ++ [a]) ++ [b]).
Proof.
  intros Hl Hab. induction l as [|c l IH].
  - cbn. repeat constructor. exact Hab.
  - cbn in *. destruct (l ++ [a]) as [|c' l'] eqn:E.
    + destruct l; discriminate.
    + cbn. inversion Hl; subst. constructor; [|assumption].
      apply IH. assumption.
Qed.

Lemma LocallySorted_nth (d : A) (l : list A) :
  LocallySorted P l ->
  forall i, S i < length l -> P (nth i l d) (nth (S i) l d).
Proof.
  induction 1 as [|a|a b l Hl IH Hab]; intros i Hi.
  - cbn in Hi. lia.
  - cbn in Hi. lia.
  - destruct i as [|i]; [exact Hab|].
    apply (IH i). cbn in *. lia.
Qed.

Lemma LocallySorted_nth_trans (d : A) (l : list A) :
  (forall a b c, P a b -> P b c -> P a c) ->
  LocallySorted P l ->
  forall i j, i < j < length l -> P (nth i l d) (nth j l d).
Proof.
  intros Htrans Hl i j [Hij Hj].
  induction j as [|j IH]; [lia|].
  destruct (Nat.eq_dec i j) as [->|Hne].
  - now apply LocallySorted_nth.
  - apply Htrans with (nth j l d).
    + apply IH; lia.
    + now apply LocallySorted_nth.
Qed.

End Chains.

(** ** trace *)

Section Trace.
Context {num : Type} {NumOps : Number num}.
Variable settings : Settings num.
Variable f : Field num.
Variable cellSize : num.

Local Open Scope num_scope.

Lemma traceLoop_extends (i : nat) :
  forall x y t (acc : list (StreamLineVertex num)),
  exists more,
    traceLoop settings f cellSize i x y t acc = acc ++ more /\
    length more = length (traceDivisors settings f i x y t) /\
    length more <= i.
Proof.
  induction i as [|i IH]; intros x y t acc.
  - exists []. cbn. rewrite app_nil_r. repeat split; lia.
  - cbn. destruct (traceStep settings f x y t) as [|v x' y' t'].
    + exists []. cbn. rewrite app_nil_r. repeat split; lia.
    + destruct (IH x' y' t' (acc ++ [vertexAt cellSize x' y' t'])) as (more & Heq & Hlen & Hle).
      exists (vertexAt cellSize x' y' t' :: more). unfold vertexAt in *.
      rewrite Heq, <- app_assoc. cbn. repeat split; lia.
Qed.

(** [trace] returns between 1 and [verticesPerLine + 1] vertices, the
    first one at the seed with time 0, and makes one round of its loop
    for each further vertex. *)
Lemma trace_shape (x0 y0 : num) :
  exists more,
    trace settings f x0 y0 cellSize = vertexAt cellSize x0 y0 (ofZ 0) :: more /\
    length more = length (traceDivisors settings f (verticesPerLine settings)
                            x0 y0 (ofZ 0)) /\
    length more <= verticesPerLine settings.
Proof.
  unfold trace. cbv zeta.
  destruct (traceLoop_extends (verticesPerLine settings) x0 y0 (ofZ 0)
              [vertexAt cellSize x0 y0 (ofZ 0)]) as (more & Heq & Hlen & Hle).
  exists more. unfold vertexAt in *. rewrite Heq. cbn. repeat split; lia.
Qed.

Lemma trace_length (x0 y0 : num) :
  1 <= length (trace settings f x0 y0 cellSize) <= verticesPerLine settings + 1.
Proof.
  destruct (trace_shape x0 y0) as (more & -> & _ & Hle). cbn. lia.
Qed.

(** A relation that every round of the loop establishes between the
    vertex it starts from and the vertex it pushes holds between all
    consecutive vertices of the line. *)
Lemma traceLoop_chain (P : StreamLineVertex num -> StreamLineVertex num -> Prop) :
  (forall x y t v x' y' t',
      traceStep settings f x y t = Advanced v x' y' t' ->
      P (vertexAt cellSize x y t) (vertexAt cellSize x' y' t')) ->
  forall i x y t (acc : list (StreamLineVertex num)),
  LocallySorted P (acc ++ [vertexAt cellSize x y t]) ->
  LocallySorted P (traceLoop settings f cellSize i x y t (acc ++ [vertexAt cellSize x y t])).
Proof.
  intros Hstep. induction i as [|i IH]; intros x y t acc Hacc.
  - exact Hacc.
  - cbn. destruct (traceStep settings f x y t) as [|v x' y' t'] eqn:E.
    + exact Hacc.
    + apply (IH x' y' t' (acc ++ [vertexAt cellSize x y t])).
      apply LocallySorted_snoc; [exact Hacc|].
      eapply Hstep. exact E.
Qed.

Lemma trace_chain (P : StreamLineVertex num -> StreamLineVertex num -> Prop)
    (x0 y0 : num) :
  (forall x y t v x' y' t',
      traceStep settings f x y t = Advanced v x' y' t' ->
      P (vertexAt cellSize x y t) (vertexAt cellSize x' y' t')) ->
  LocallySorted P (trace settings f x0 y0 cellSize).
Proof.
  intros Hstep. unfold trace. cbv zeta.
  apply (traceLoop_chain Hstep (verticesPerLine settings) x0 y0 (ofZ 0) []).
  cbn. constructor.
Qed.

End Trace.

(** ** trace in exact arithmetic *)

Section TraceExact.
Variable settings : Settings R.
Variable f : Field R.
Variable cellSize : R.
Hypothesis segmentLength_pos : (0 < segmentLength settings)%R.
Hypothesis minSpeed_pos : (0 < minSpeedThreshold settings)%R.

Local Open Scope R_scope.

Lemma Rltb_false (a b : R) : Rltb a b = false -> b <= a.
Proof. unfold Rltb. destruct (Rlt_dec a b); [discriminate|lra]. Qed.

Lemma Rltb_lt (a b : R) : a < b -> Rltb a b = true.
Proof. unfold Rltb. destruct (Rlt_dec a b); [reflexivity|lra]. Qed.

Lemma Rltb_ge (a b : R) : b <= a -> Rltb a b = false.
Proof. unfold Rltb. destruct (Rlt_dec a b); [lra|reflexivity]. Qed.

(** A round that advances divides by a speed [v] that is at least the
    threshold, advances the time by [segmentLength / v] and moves the
    particle by exactly [segmentLength]. *)
Lemma traceStep_advanced (x y t v x' y' t' : R) :
  traceStep settings f x y t = Advanced v x' y' t' ->
  minSpeedThreshold settings <= v /\
  t' = t + segmentLength settings / v /\
  (x' - x) * (x' - x) + (y' - y) * (y' - y) =
    segmentLength settings * segmentLength settings.
Proof.
  unfold traceStep. destruct (f x y) as [vx vy]. cbn.
  set (sx := vx * speedScale settings).
  set (sy := vy * speedScale settings).
  set (s := sqrt (sx * sx + sy * sy)).
  destruct (Rltb s (minSpeedThreshold settings)) eqn:E; [discriminate|].
  intros H. injection H as <- <- <- <-.
  apply Rltb_false in E.
  assert (Hs : 0 < s) by lra.
  assert (Hs2 : s * s = sx * sx + sy * sy).
  { unfold s. apply sqrt_sqrt. nra. }
  repeat split; [exact E|].
  set (L := segmentLength settings) in *.
  replace ((x + sx / s * L - x) * (x + sx / s * L - x) +
           (y + sy / s * L - y) * (y + sy / s * L - y))
    with ((sx * sx + sy * sy) * (L / s) * (L / s)) by (field; lra).
  rewrite <- Hs2. field. lra.
Qed.

Lemma traceStep_time_increases (x y t v x' y' t' : R) :
  traceStep settings f x y t = Advanced v x' y' t' ->
  time (vertexAt cellSize x y t) < time (vertexAt cellSize x' y' t').
Proof.
  intros H. apply traceStep_advanced in H. destruct H as (Hv & -> & _).
  cbn. assert (0 < segmentLength settings / v).
  { apply Rdiv_lt_0_compat; lra. }
  lra.
Qed.

Lemma traceStep_divisors_pos (x y t v x' y' t' : R) :
  cellSize <> 0 ->
  traceStep settings f x y t = Advanced v x' y' t' ->
  0 < speedDivisor (vertexAt cellSize x y t) (vertexAt cellSize x' y' t') /\
  0 < normalDivisor (vertexAt cellSize x y t) (vertexAt cellSize x' y' t').
Proof.
  intros Hcs H. split.
  - apply traceStep_time_increases in H. unfold speedDivisor. cbn in *. lra.
  - apply traceStep_advanced in H. destruct H as (_ & _ & Hlen).
    unfold normalDivisor. cbn. apply sqrt_lt_R0.
    replace ((x' * cellSize - x * cellSize) * (x' * cellSize - x * cellSize) +
             (y' * cellSize - y * cellSize) * (y' * cellSize - y * cellSize))
      with (cellSize * cellSize *
            ((x' - x) * (x' - x) + (y' - y) * (y' - y))) by ring.
    rewrite Hlen.
    assert (0 < cellSize * cellSize) by nra.
    assert (0 < segmentLength settings * segmentLength settings) by nra.
    nra.
Qed.

(** C3 (amended): in exact arithmetic, on a line produced by [trace]
    with a positive step length, a positive speed threshold and a
    non-zero cell size, the two divisors that the mesh builder uses for
    the segment from [line[i-1]] to [line[i]] are positive: the time
    difference [t1 - t0] and the length [l]. *)
Theorem trace_segments_not_degenerate (x0 y0 : R) :
  cellSize <> 0 ->
  let line := trace settings f x0 y0 cellSize in
  forall i, (1 <= i < length line)%nat ->
    0 < speedDivisor (nth (i - 1) line noVertex) (nth i line noVertex) /\
    0 < normalDivisor (nth (i - 1) line noVertex) (nth i line noVertex).
Proof.
  intros Hcs line i Hi.
  replace i with (S (i - 1)) at 2 4 by lia.
  apply (LocallySorted_nth
           (P := fun v0 v1 : StreamLineVertex R =>
                   0 < speedDivisor v0 v1 /\ 0 < normalDivisor v0 v1)).
  - apply trace_chain. intros. eapply traceStep_divisors_pos; eassumption.
  - lia.
Qed.

End TraceExact.

(** C2 (amended): in every number model, binary64 included, for every
    field and every seed, [trace] makes at most [verticesPerLine] rounds
    of its loop, one for each vertex after the first, and returns at
    least 1 and at most [verticesPerLine + 1] vertices, the first one
    with time 0.  In exact arithmetic, with a positive step length and
    a positive speed threshold, the times are strictly increasing. *)
Theorem trace_length_and_exact_times :
  (forall (num : Type) (NumOps : Number num) (settings : Settings num)
          (f : Field num) (x0 y0 cellSize : num),
     let line := trace settings f x0 y0 cellSize in
     1 <= length line <= verticesPerLine settings + 1 /\
     time (nth 0 line noVertex) = ofZ 0 /\
     length line =
       S (length (traceDivisors settings f (verticesPerLine settings)
                    x0 y0 (ofZ 0))) /\
     length (traceDivisors settings f (verticesPerLine settings) x0 y0 (ofZ 0))
       <= verticesPerLine settings) /\
  (forall (settings : Settings R) (f : Field R) (x0 y0 cellSize : R),
     (0 < segmentLength settings)%R ->
     (0 < minSpeedThreshold settings)%R ->
     let line := trace settings f x0 y0 cellSize in
     forall i j, i < j < length line ->
       (time (nth i line noVertex) < time (nth j line noVertex))%R).
Proof.
  split.
  - intros num NumOps settings f x0 y0 cellSize line.
    destruct (trace_shape settings f cellSize x0 y0) as (more & Hline & Hrounds & Hle).
    fold line in Hline. rewrite Hline. cbn [length nth time vertexAt].
    rewrite <- Hrounds. repeat split; lia.
  - intros settings f x0 y0 cellSize Hs Hm line.
    apply (LocallySorted_nth_trans
             (P := fun v0 v1 : StreamLineVertex R => (time v0 < time v1)%R)).
    + intros a b c. lra.
    + apply trace_chain. intros.
      eapply (@traceStep_time_increases settings f cellSize Hs Hm). eassumption.
Qed.

(** ** trace on binary64 numbers, with the settings of the program *)

Section TraceFloat.

Local Open Scope float_scope.

Lemma traceStep_scaledSpeed {num : Type} {NumOps : Number num}
    (settings : Settings num) (f : Field num) (x y t : num) :
  traceStep settings f x y t = Stopped /\
    (scaledSpeed settings f x y <? minSpeedThreshold settings)%num = true \/
  (exists x' y' t',
     traceStep settings f x y t = Advanced (scaledSpeed settings f x y) x' y' t') /\
    (scaledSpeed settings f x y <? minSpeedThreshold settings)%num = false.
Proof.
  unfold traceStep, scaledSpeed. destruct (f x y) as [vx vy]. cbv zeta.
  destruct (_ <? _)%num; [left|right]; eauto.
Qed.

(** What holds of the divisor of every round that advances holds of all
    the divisors of a trace. *)
Lemma traceDivisors_Forall {num : Type} {NumOps : Number num}
    (settings : Settings num) (f : Field num) (P : num -> Prop) :
  (forall x y t v x' y' t',
      traceStep settings f x y t = Advanced v x' y' t' -> P v) ->
  forall i x y t, Forall P (traceDivisors settings f i x y t).
Proof.
  intros Hstep. induction i as [|i IH]; intros x y t; cbn; [constructor|].
  destruct (traceStep settings f x y t) as [|v x' y' t'] eqn:E; [constructor|].
  constructor; [eapply Hstep; exact E|apply IH].
Qed.

(** A binary64 zero, of either sign, is below the speed threshold. *)
Lemma zero_below_minSpeed (v : float) :
  (v =? 0) = true ->
  (v <? minSpeedThreshold (defaultSettings (num := float))) = true.
Proof.
  rewrite eqb_spec, ltb_spec.
  set (m := Prim2SF (minSpeedThreshold defaultSettings)). vm_compute in m.
  set (z := Prim2SF 0). vm_compute in z. subst m z.
  destruct (Prim2SF v) as [s|s| |s p e]; intros Hz.
  - reflexivity.
  - destruct s; discriminate Hz.
  - discriminate Hz.
  - destruct s; discriminate Hz.
Qed.

(** The divisor of a round that advances is the scaled speed, which is
    then neither a zero nor below the threshold. *)
Lemma traceStep_divisor (f : Field float) (x y t d x' y' t' : float) :
  traceStep defaultSettings f x y t = Advanced d x' y' t' ->
  d = scaledSpeed defaultSettings f x y /\
  (d =? 0) = false /\
  (d <? minSpeedThreshold defaultSettings) = false.
Proof.
  intros Hadv.
  destruct (traceStep_scaledSpeed defaultSettings f x y t)
    as [[Hstop _]|[(x1 & y1 & t1 & Hadv1) Hge]]; [congruence|].
  rewrite Hadv1 in Hadv. injection Hadv as <- _ _ _.
  split; [reflexivity|]. split; [|exact Hge].
  destruct (scaledSpeed defaultSettings f x y =? 0) eqn:Ez; [|reflexivity].
  apply zero_below_minSpeed in Ez.
  change (nlt (scaledSpeed defaultSettings f x y)
              (minSpeedThreshold defaultSettings) = true) in Ez.
  congruence.
Qed.

(** C5: on binary64 numbers with the settings of the program, a round of
    [trace] whose scaled speed [v] is zero (of either sign) or below
    [minSpeedThreshold] returns before the divisions; a round that
    reaches the divisions divides by [v], which is then neither zero nor
    below the threshold, so that no divisor of a trace is zero; and in
    the field that is zero everywhere [trace] returns the seed vertex
    alone, from every seed. *)
Theorem trace_stops_before_dividing_by_zero (f : Field float) :
  (forall x y t,
     let v := scaledSpeed defaultSettings f x y in
     ((v =? 0) = true \/ (v <? minSpeedThreshold defaultSettings) = true ->
      traceStep defaultSettings f x y t = Stopped) /\
     (forall d x' y' t',
        traceStep defaultSettings f x y t = Advanced d x' y' t' ->
        d = v /\ (d =? 0) = false /\
        (d <? minSpeedThreshold defaultSettings) = false)) /\
  (forall x0 y0,
     Forall (fun d => (d =? 0) = false)
       (traceDivisors defaultSettings f (verticesPerLine defaultSettings)
          x0 y0 0)) /\
  (forall x0 y0 cellSize,
     trace defaultSettings zeroField x0 y0 cellSize =
     [vertexAt cellSize x0 y0 0]).
Proof.
  split; [|split].
  - intros x y t v. split.
    + intros Hlow.
      assert (Hlt : (v <? minSpeedThreshold defaultSettings) = true).
      { destruct Hlow as [Hz|Hlt]; [now apply zero_below_minSpeed|exact Hlt]. }
      destruct (traceStep_scaledSpeed defaultSettings f x y t)
        as [[Hstop _]|[_ Hge]]; [exact Hstop|].
      fold v in Hge.
      change (nlt v (minSpeedThreshold defaultSettings) = true) in Hlt.
      congruence.
    + intros d x' y' t'. apply traceStep_divisor.
  - intros x0 y0.
    apply (traceDivisors_Forall defaultSettings f
             (fun d => (d =? 0) = false)).
    intros x y t v x' y' t' Hadv.
    now destruct (traceStep_divisor _ _ _ _ Hadv) as (_ & Hnz & _).
  - intros x0 y0 cellSize. reflexivity.
Qed.

End TraceFloat.

(** ** The mesh builder applies no guard *)

Section NoGuard.
Context {num : Type} {NumOps : Number num} {Rand : RandomSource num}.
Variable settings : Settings num.

Lemma pushSegments_vertexData (g h : nat -> StreamLineVertex num)
    (totalTime random : num) (l : list nat) (acc : @MeshAcc num) :
  vertexDataAcc
    (fold_left (fun acc i => pushSegment acc (g i) (h i) totalTime random) l acc) =
  vertexDataAcc acc ++
  flat_map (fun i => segmentVertexData (g i) (h i) totalTime random) l.
Proof.
  revert acc. induction l as [|i l IH]; intros acc.
  - cbn. now rewrite app_nil_r.
  - cbn [fold_left flat_map]. rewrite IH. cbn [pushSegment vertexDataAcc].
    now rewrite <- app_assoc.
Qed.

Lemma lastVertexOf_nth (line : list (StreamLineVertex num))
    (lastVertex : StreamLineVertex num) :
  lastVertexOf line = Some lastVertex ->
  nth (length line - 1) line noVertex = lastVertex.
Proof. intros H. now apply nth_error_nth. Qed.

Lemma meshLoop_vertexData (world : World num)
    (streamLines : list (list (StreamLineVertex num))) :
  forall (rand : RandState) (restTime : num) (acc acc' : @MeshAcc num)
         (s s' : Sched),
  meshLoop settings world streamLines rand restTime acc s = Resolved (acc', s') ->
  vertexDataAcc acc' =
  vertexDataAcc acc ++ allSegmentsVertexData streamLines rand.
Proof.
  induction streamLines as [|line more IH]; intros rand restTime acc acc' s s' Hrun.
  - cbn in Hrun. injection Hrun as <- _. cbn. now rewrite app_nil_r.
  - rewrite meshLoop_cons in Hrun. cbv zeta in Hrun.
    cbn [allSegmentsVertexData].
    destruct (nextRand rand) as [random rand'] eqn:Hrand.
    cbn [fst snd] in Hrun.
    destruct (lastVertexOf line) as [lv|] eqn:Hlast.
    + assert (Hmore : exists restTime1 s1,
                 meshLoop settings world more rand' restTime1
                   (lineLoop line (time lv) random acc) s1 = Resolved (acc', s')).
      { destruct (_ <? _)%num.
        - destruct (signal_aborted world (checkpoints s)); [discriminate|]. eauto.
        - eauto. }
      destruct Hmore as (rt1 & s1 & Hmore).
      apply IH in Hmore. rewrite Hmore. unfold lineLoop.
      rewrite pushSegments_vertexData, <- app_assoc.
      now rewrite (lastVertexOf_nth line Hlast).
    + destruct (_ <? _)%num;
        [destruct (signal_aborted world (checkpoints s))|]; discriminate.
Qed.

Lemma buildMesh_vertexData (world : World num)
    (streamLines : list (list (StreamLineVertex num)))
    (mesh : StreamLinesMesh num) :
  run (buildMesh settings world streamLines) = Resolved mesh ->
  vertexData mesh = map fround (allSegmentsVertexData streamLines createRand) /\
  length (indexData mesh) = 6 * segmentCount streamLines.
Proof.
  intros Hrun. rewrite buildMesh_run in Hrun.
  destruct (meshLoop _ _ _ _ _ _ _) as [[acc s']|e] eqn:Hloop; [|discriminate].
  injection Hrun as <-. split.
  - apply meshLoop_vertexData in Hloop. cbn in *. now rewrite Hloop.
  - apply meshLoop_resolved in Hloop. destruct Hloop as (_ & _ & _ & Hi).
    cbn in *. now rewrite length_map, Hi, quadIndices_length.
Qed.

End NoGuard.

(** In exact arithmetic the divisors of a segment vanish exactly on the
    degenerate pairs. *)
Lemma divisors_zero_iff_degenerate (v0 v1 : StreamLineVertex R) :
  (speedDivisor v0 v1 <> 0%R <-> time v1 <> time v0) /\
  (normalDivisor v0 v1 <> 0%R <-> position v1 <> position v0).
Proof.
  unfold speedDivisor, normalDivisor.
  destruct v0 as [[x0 y0] t0], v1 as [[x1 y1] t1]. cbn. split.
  - split; intros H; lra.
  - set (a := (x1 - x0)%R). set (b := (y1 - y0)%R).
    assert (Hsq : (0 <= a * a + b * b)%R) by nra.
    split.
    + intros Hl Heq. injection Heq as -> ->. apply Hl.
      unfold a, b. replace (_ + _)%R with 0%R by ring. apply sqrt_0.
    + intros Hp Hl. apply sqrt_eq_0 in Hl; [|exact Hsq].
      apply Hp. assert (a = 0%R) by nra. assert (b = 0%R) by nra.
      unfold a, b in *. f_equal; lra.
Qed.

(** C4 (amended): the mesh builder has no guard for degenerate pairs.
    For every batch of lines, the vertex data of a returned mesh are the
    36 numbers of every consecutive vertex pair of every line, in order
    and with none skipped, each computed with the divisions by
    [t1 - t0] and by [l] and stored as a binary32 number, and there are
    6 indices per pair; in exact arithmetic the two divisors are
    non-zero exactly for the pairs that differ in time, respectively in
    position. *)
Theorem buildMesh_has_no_degeneracy_guard :
  (forall (num : Type) (NumOps : Number num) (Rand : RandomSource num)
          (settings : Settings num) (world : World num)
          (streamLines : list (list (StreamLineVertex num)))
          (mesh : StreamLinesMesh num),
     run (buildMesh settings world streamLines) = Resolved mesh ->
     vertexData mesh = map fround (allSegmentsVertexData streamLines createRand) /\
     length (indexData mesh) = 6 * segmentCount streamLines) /\
  (forall v0 v1 : StreamLineVertex R,
     (speedDivisor v0 v1 <> 0%R <-> time v1 <> time v0) /\
     (normalDivisor v0 v1 <> 0%R <-> position v1 <> position v0)).
Proof.
  split.
  - intros. eapply buildMesh_vertexData. eassumption.
  - apply divisors_zero_iff_degenerate.
Qed.

(** ** The batch of stream lines *)

Section Batch.
Context {num : Type} {NumOps : Number num} {MathOps : MathLib num}
        {Rand : RandomSource num}.
Variable settings : Settings num.
Variable f : Field num.
Variables columns rows : Z.
Variable cellSize : num.

Lemma nextRand_randStateAfter (k : nat) :
  nextRand (randStateAfter k) = (draw k, randStateAfter (S k)).
Proof. unfold draw. cbn. now destruct (nextRand (randStateAfter k)). Qed.

Lemma getStreamLinesLoop_spec (n : nat) :
  forall (k : nat) (lines : list (list (StreamLineVertex num))),
  getStreamLinesLoop settings f columns rows cellSize n (randStateAfter k) lines =
  (lines ++
   map (fun i =>
          trace settings f
            (ofZ (Math_round (draw (k + 2 * i) * ofZ columns)%num))
            (ofZ (Math_round (draw (S (k + 2 * i)) * ofZ rows)%num)) cellSize)
       (seq 0 n),
   randStateAfter (k + 2 * n)).
Proof.
  induction n as [|n IH]; intros k lines.
  - cbn. now rewrite app_nil_r, Nat.add_0_r.
  - cbn [getStreamLinesLoop].
    rewrite !nextRand_randStateAfter.
    rewrite (IH (S (S k))). f_equal.
    + rewrite <- app_assoc. f_equal. cbn [seq map app].
      rewrite Nat.mul_0_r, Nat.add_0_r. f_equal.
      rewrite <- seq_shift, map_map. apply map_ext. intros i.
      replace (S (S k) + 2 * i) with (k + 2 * S i) by lia. reflexivity.
    + f_equal. lia.
Qed.

(** The batch holds one line per round, in the order of the draws: line
    number [i] is the trace from the seed made of the draws [2 i] and
    [2 i + 1]; the source is left after [2 * linesPerVisualization]
    draws. *)
Lemma getStreamLines_spec :
  getStreamLines settings f columns rows cellSize =
    map (fun i => trace settings f (ofZ (seedX columns i)) (ofZ (seedY rows i))
                        cellSize)
        (seq 0 (linesPerVisualization settings)) /\
  snd (getStreamLinesLoop settings f columns rows cellSize
         (linesPerVisualization settings) createRand []) =
    randStateAfter (2 * linesPerVisualization settings).
Proof.
  unfold getStreamLines.
  change (createRand (RandomSource := Rand)) with (randStateAfter 0).
  rewrite getStreamLinesLoop_spec. cbn [fst snd app]. split; [|reflexivity].
  apply map_ext. intros i. unfold seedX, seedY.
  replace (0 + 2 * i) with (2 * i) by lia.
  replace (S (2 * i)) with (2 * i + 1) by lia. reflexivity.
Qed.

Lemma getStreamLines_nonempty :
  Forall (fun line => 1 <= length line)
         (getStreamLines settings f columns rows cellSize).
Proof.
  destruct getStreamLines_spec as [-> _].
  apply Forall_forall. intros line Hin. apply in_map_iff in Hin.
  destruct Hin as (i & <- & _). apply trace_length.
Qed.

End Batch.




(** ** Loops and typed arrays *)

(** The invariant rule of the loop [for (i = lo; i < hi; i++)]. *)
Lemma forZ_invariant {St : Type} (Inv : Z -> St -> Prop) (lo hi : Z)
    (body : Z -> St -> St) (s : St) :
  (lo <= hi)%Z ->
  Inv lo s ->
  (forall i s, (lo <= i < hi)%Z -> Inv i s -> Inv (i + 1)%Z (body i s)) ->
  Inv hi (forZ lo hi body s).
Proof.
  intros Hle Hinit Hstep. unfold forZ.
  assert (Hgen : forall n, (lo + Z.of_nat n <= hi)%Z ->
            Inv (lo + Z.of_nat n)%Z
                (fold_left (fun s k => body (lo + Z.of_nat k)%Z s) (seq 0 n) s)).
  { induction n as [|n IH]; intros Hn.
    - cbn [seq fold_left]. now replace (lo + Z.of_nat 0)%Z with lo by lia.
    - rewrite seq_S, fold_left_app. cbn [fold_left Nat.add].
      replace (lo + Z.of_nat (S n))%Z with (lo + Z.of_nat n + 1)%Z by lia.
      apply Hstep; [lia|]. apply IH. lia. }
  specialize (Hgen (Z.to_nat (hi - lo))).
  replace (lo + Z.of_nat (Z.to_nat (hi - lo)))%Z with hi in Hgen by lia.
  apply Hgen. lia.
Qed.

Section ArrayLemmas.
Context {A : Type}.

Lemma length_update (i : nat) (v : A) (l : list A) :
  length (update i v l) = length l.
Proof.
  revert i. induction l as [|h t IH]; intros [|i]; cbn; auto.
Qed.

Lemma nth_update_eq (i : nat) (v d : A) (l : list A) :
  i < length l -> nth i (update i v l) d = v.
Proof.
  revert i. induction l as [|h t IH]; intros [|i] Hi; cbn in *; try lia; auto.
  apply IH. lia.
Qed.

Lemma nth_update_neq (i j : nat) (v d : A) (l : list A) :
  i <> j -> nth j (update i v l) d = nth j l d.
Proof.
  revert i j. induction l as [|h t IH]; intros [|i] [|j] Hij; cbn; auto; try lia.
Qed.

End ArrayLemmas.

Section Float32Arrays.
Context {num : Type} {NumOps : Number num}.

Lemma length_setF32 (a : list num) (i : Z) (v : num) :
  length (setF32 a i v) = length a.
Proof.
  unfold setF32. destruct (_ && _); [apply length_update|reflexivity].
Qed.

Lemma getF32_setF32_eq (a : list num) (i : Z) (v : num) :
  (0 <= i < Z.of_nat (length a))%Z ->
  getF32 (setF32 a i v) i = fround v.
Proof.
  intros Hi. unfold getF32. rewrite length_setF32. unfold setF32.
  assert (E : ((0 <=? i) && (i <? Z.of_nat (length a)))%Z = true).
  { apply andb_true_intro. split; [apply Z.leb_le|apply Z.ltb_lt]; lia. }
  rewrite E. apply nth_update_eq. lia.
Qed.

Lemma getF32_setF32_neq (a : list num) (i j : Z) (v : num) :
  i <> j -> getF32 (setF32 a i v) j = getF32 a j.
Proof.
  intros Hij. unfold getF32. rewrite length_setF32. unfold setF32.
  destruct ((0 <=? j) && (j <? Z.of_nat (length a)))%Z eqn:Ej; [|reflexivity].
  destruct ((0 <=? i) && (i <? Z.of_nat (length a)))%Z eqn:Ei; [|reflexivity].
  apply andb_prop in Ej, Ei. destruct Ej as [Ej _], Ei as [Ei _].
  apply Z.leb_le in Ej, Ei.
  apply nth_update_neq. lia.
Qed.

Lemma getF32_nth (a : list num) (i : nat) :
  i < length a -> getF32 a (Z.of_nat i) = nth i a (ofZ 0).
Proof.
  intros Hi. unfold getF32.
  assert (E : ((0 <=? Z.of_nat i) && (Z.of_nat i <? Z.of_nat (length a)))%Z = true).
  { apply andb_true_intro. split; [apply Z.leb_le|apply Z.ltb_lt]; lia. }
  now rewrite E, Nat2Z.id.
Qed.

(** Two arrays of the same length with the same elements are equal. *)
Lemma getF32_ext (a b : list num) :
  length a = length b ->
  (forall i, (0 <= i < Z.of_nat (length a))%Z -> getF32 a i = getF32 b i) ->
  a = b.
Proof.
  intros Hlen Hget. apply (nth_ext a b (ofZ 0) (ofZ 0) Hlen).
  intros n Hn. rewrite <- (@getF32_nth a n) by lia.
  rewrite <- (@getF32_nth b n) by lia. apply Hget. lia.
Qed.

End Float32Arrays.

(** The cells of a grid have distinct indices. *)
Lemma cell_index_injective (columns x y x' y' : Z) :
  (0 <= x < columns)%Z -> (0 <= x' < columns)%Z ->
  (y * columns + x = y' * columns + x')%Z -> x = x' /\ y = y'.
Proof.
  intros Hx Hx' Heq.
  assert (Hy : y = y').
  { destruct (Z.lt_trichotomy y y') as [H|[H|H]]; [exfalso|exact H|exfalso]; nia. }
  subst y'. split; [lia|reflexivity].
Qed.

(** The index of a channel of a cell of the grid lies within an array
    of [2 * columns * rows] elements. *)
Lemma cell_index_in_range (columns rows x y c : Z) :
  (0 <= x < columns)%Z -> (0 <= y < rows)%Z -> (c = 0 \/ c = 1)%Z ->
  (0 <= 2 * (y * columns + x) + c < 2 * columns * rows)%Z.
Proof. intros Hx Hy Hc. nia. Qed.

(** Every index of a grid array is the index of a channel of a cell. *)
Lemma cell_index_surjective (columns rows i : Z) :
  (0 <= columns)%Z ->
  (0 <= i < 2 * columns * rows)%Z ->
  exists x y c, (0 <= x < columns)%Z /\ (0 <= y < rows)%Z /\ (c = 0 \/ c = 1)%Z /\
                i = (2 * (y * columns + x) + c)%Z.
Proof.
  intros Hcol Hi.
  assert (Hc : (0 < columns)%Z).
  { destruct (Z.eq_dec columns 0) as [->|Hne]; lia. }
  exists ((i / 2) mod columns)%Z, ((i / 2) / columns)%Z, (i mod 2)%Z.
  pose proof (Z.mod_pos_bound (i / 2) columns Hc).
  pose proof (Z.mod_pos_bound i 2 ltac:(lia)).
  pose proof (Z.div_mod i 2 ltac:(lia)).
  pose proof (Z.div_mod (i / 2) columns ltac:(lia)).
  assert (0 <= i / 2 < columns * rows)%Z.
  { split; [apply Z.div_pos; lia|]. apply Z.div_lt_upper_bound; lia. }
  repeat split; try lia.
  - apply Z.div_pos; lia.
  - apply Z.div_lt_upper_bound; lia.
Qed.

(** ** The two passes of smooth *)

Section Passes.
Context {num : Type} {NumOps : Number num}.
Variable settings : Settings num.
Variables columns rows : Z.
Hypothesis columns_nonneg : (0 <= columns)%Z.
Hypothesis rows_nonneg : (0 <= rows)%Z.

Lemma storeCell_spec (a : list num) (x y : Z) (sums : num * num * num) :
  Z.of_nat (length a) = (2 * columns * rows)%Z ->
  (0 <= x < columns)%Z -> (0 <= y < rows)%Z ->
  length (storeCell settings a columns x y sums) = length a /\
  cellHolds settings (storeCell settings a columns x y sums) columns x y sums /\
  (forall x' y' sums',
     (0 <= x' < columns)%Z -> (x', y') <> (x, y) ->
     cellHolds settings a columns x' y' sums' ->
     cellHolds settings (storeCell settings a columns x y sums) columns x' y' sums').
Proof.
  intros Hlen Hx Hy. destruct sums as [[totalWeight s0] s1].
  unfold storeCell, cellHolds.
  set (i := (y * columns + x)%Z).
  assert (Hi : (0 <= i < columns * rows)%Z) by (unfold i; nia).
  split; [|split].
  - now rewrite !length_setF32.
  - split.
    + rewrite getF32_setF32_neq by lia.
      apply getF32_setF32_eq. lia.
    + apply getF32_setF32_eq. rewrite length_setF32. lia.
  - intros x' y' [[tw' s0'] s1'] Hx' Hne [H0 H1].
    assert (Hi' : (y' * columns + x' <> i)%Z).
    { unfold i. intros Heq.
      destruct (@cell_index_injective columns x' y' x y Hx' Hx Heq) as [-> ->].
      now apply Hne. }
    rewrite !getF32_setF32_neq by lia. now split.
Qed.

(** A pass that visits the cells row by row leaves in every cell of the
    grid the averages of the sums computed for it. *)
Lemma rowMajor_pass (val : Z -> Z -> num * num * num) (a0 : list num) :
  Z.of_nat (length a0) = (2 * columns * rows)%Z ->
  let a := forZ 0 rows
             (fun y a =>
                forZ 0 columns
                  (fun x a => storeCell settings a columns x y (val x y)) a)
             a0 in
  length a = length a0 /\
  forall x y, (0 <= x < columns)%Z -> (0 <= y < rows)%Z ->
              cellHolds settings a columns x y (val x y).
Proof.
  intros Hlen a.
  assert (Hinv : length a = length a0 /\
                 forall x' y', (0 <= x' < columns)%Z -> (0 <= y' < rows)%Z ->
                               cellHolds settings a columns x' y' (val x' y')).
  { unfold a.
    apply (forZ_invariant
             (fun y a => length a = length a0 /\
                forall x' y', (0 <= x' < columns)%Z -> (0 <= y' < y)%Z ->
                              cellHolds settings a columns x' y' (val x' y'))).
    - exact rows_nonneg.
    - split; [reflexivity|]. intros; lia.
    - intros y b Hy [Hb Hcells].
      assert (Hrow : length (forZ 0 columns
                       (fun x a => storeCell settings a columns x y (val x y)) b)
                     = length a0 /\
                forall x' y', (0 <= x' < columns)%Z ->
                  ((0 <= y' < y)%Z \/ (y' = y /\ x' < columns)%Z) ->
                  cellHolds settings
                    (forZ 0 columns
                       (fun x a => storeCell settings a columns x y (val x y)) b)
                    columns x' y' (val x' y')).
      { apply (forZ_invariant
                 (fun x a => length a = length a0 /\
                    forall x' y', (0 <= x' < columns)%Z ->
                      ((0 <= y' < y)%Z \/ (y' = y /\ x' < x)%Z) ->
                      cellHolds settings a columns x' y' (val x' y'))).
        - exact columns_nonneg.
        - split; [exact Hb|]. intros x' y' Hx' [Hy'|[_ Hlt]]; [|lia].
          now apply Hcells.
        - intros x c Hx [Hc Hdone].
          destruct (storeCell_spec c (val x y)
                      ltac:(rewrite Hc; exact Hlen) Hx Hy)
            as (Slen & Sown & Sother).
          split; [congruence|].
          intros x' y' Hx' Hwhere.
          destruct (Z.eq_dec x' x) as [->|Hxne].
          + destruct (Z.eq_dec y' y) as [->|Hyne]; [exact Sown|].
            apply Sother; [exact Hx'|congruence|].
            apply Hdone; [exact Hx'|]. lia.
          + apply Sother; [exact Hx'|congruence|].
            apply Hdone; [exact Hx'|]. lia. }
      destruct Hrow as [Hrlen Hrcells]. split; [exact Hrlen|].
      intros x' y' Hx' Hy'. apply Hrcells; [exact Hx'|]. lia. }
  exact Hinv.
Qed.

(** The same for a pass that visits the cells column by column. *)
Lemma columnMajor_pass (val : Z -> Z -> num * num * num) (a0 : list num) :
  Z.of_nat (length a0) = (2 * columns * rows)%Z ->
  let a := forZ 0 columns
             (fun x a =>
                forZ 0 rows
                  (fun y a => storeCell settings a columns x y (val x y)) a)
             a0 in
  length a = length a0 /\
  forall x y, (0 <= x < columns)%Z -> (0 <= y < rows)%Z ->
              cellHolds settings a columns x y (val x y).
Proof.
  intros Hlen a.
  assert (Hinv : length a = length a0 /\
                 forall x' y', (0 <= x' < columns)%Z -> (0 <= y' < rows)%Z ->
                               cellHolds settings a columns x' y' (val x' y')).
  { unfold a.
    apply (forZ_invariant
             (fun x a => length a = length a0 /\
                forall x' y', (0 <= x' < x)%Z -> (0 <= y' < rows)%Z ->
                              cellHolds settings a columns x' y' (val x' y'))).
    - exact columns_nonneg.
    - split; [reflexivity|]. intros; lia.
    - intros x b Hx [Hb Hcells].
      assert (Hcol : length (forZ 0 rows
                       (fun y a => storeCell settings a columns x y (val x y)) b)
                     = length a0 /\
                forall x' y', (0 <= y' < rows)%Z ->
                  ((0 <= x' < x)%Z \/ (x' = x /\ y' < rows)%Z) ->
                  cellHolds settings
                    (forZ 0 rows
                       (fun y a => storeCell settings a columns x y (val x y)) b)
                    columns x' y' (val x' y')).
      { apply (forZ_invariant
                 (fun y a => length a = length a0 /\
                    forall x' y', (0 <= y' < rows)%Z ->
                      ((0 <= x' < x)%Z \/ (x' = x /\ y' < y)%Z) ->
                      cellHolds settings a columns x' y' (val x' y'))).
        - exact rows_nonneg.
        - split; [exact Hb|]. intros x' y' Hy' [Hx'|[_ Hlt]]; [|lia].
          now apply Hcells.
        - intros y c Hy [Hc Hdone].
          destruct (storeCell_spec c (val x y)
                      ltac:(rewrite Hc; exact Hlen) Hx Hy)
            as (Slen & Sown & Sother).
          split; [congruence|].
          intros x' y' Hy' Hwhere.
          assert (Hx' : (0 <= x' < columns)%Z) by lia.
          destruct (Z.eq_dec y' y) as [->|Hyne].
          + destruct (Z.eq_dec x' x) as [->|Hxne]; [exact Sown|].
            apply Sother; [exact Hx'|congruence|].
            apply Hdone; [exact Hy'|]. lia.
          + apply Sother; [exact Hx'|congruence|].
            apply Hdone; [exact Hy'|]. lia. }
      destruct Hcol as [Hclen Hccells]. split; [exact Hclen|].
      intros x' y' Hx' Hy'. apply Hccells; [exact Hy'|]. lia. }
  exact Hinv.
Qed.

End Passes.

(** ** smooth in exact arithmetic *)

Section SmoothExact.
Variable settings : Settings R.
Variable sigma : R.
Hypothesis sigma_pos : (0 < sigma)%R.
Hypothesis minWeight_le_1 : (minWeightThreshold settings <= 1)%R.

Local Open Scope R_scope.

Lemma kernelWeight_pos (d : Z) : 0 < kernelWeight sigma d.
Proof. unfold kernelWeight. cbn. apply exp_pos. Qed.

Lemma kernelWeight_0 : kernelWeight sigma 0 = 1.
Proof.
  unfold kernelWeight. cbn. unfold Rdiv. rewrite Rmult_0_l. apply exp_0.
Qed.

Lemma halfRadius_nonneg : (0 <= Math_round (ofZ 3 * sigma)%num)%Z.
Proof. cbn. apply Zfloor_lub. lra. Qed.

(** The loop over [d], for any test [out] that keeps [d = 0] and any
    two sequences of samples: the total weight is at least the weight 1
    of [d = 0], and constant samples give sums that are the constant
    times the total weight. *)
Lemma kernel_sums (halfRadius : Z) (out : Z -> bool) (r0 r1 : Z -> R)
    (u0 u1 totalWeight s0 s1 : R) :
  (0 <= halfRadius)%Z -> out 0%Z = false ->
  forZ (- halfRadius) (halfRadius + 1)
    (fun d '(totalWeight, s0, s1) =>
       if out d then (totalWeight, s0, s1)
       else
         let weight := kernelWeight sigma d in
         (totalWeight + weight, s0 + weight * r0 d, s1 + weight * r1 d)%num)
    (0, 0, 0) = (totalWeight, s0, s1) ->
  1 <= totalWeight /\
  ((forall d, out d = false -> r0 d = u0) -> s0 = u0 * totalWeight) /\
  ((forall d, out d = false -> r1 d = u1) -> s1 = u1 * totalWeight).
Proof.
  intros Hh Hout Hloop.
  set (Inv := fun (i : Z) (st : R * R * R) =>
     let '(tw, a0, a1) := st in
     0 <= tw /\ ((0 < i)%Z -> 1 <= tw) /\
     ((forall d, out d = false -> r0 d = u0) -> a0 = u0 * tw) /\
     ((forall d, out d = false -> r1 d = u1) -> a1 = u1 * tw)).
  assert (H : Inv (halfRadius + 1)%Z (totalWeight, s0, s1)).
  { rewrite <- Hloop. apply forZ_invariant.
    - lia.
    - unfold Inv. repeat split; intros; try lra; lia.
    - intros d [[tw a0] a1] Hd (Htw & Hone & Ha0 & Ha1). unfold Inv.
      destruct (out d) eqn:Ed.
      + repeat split; try assumption.
        intros Hpos. apply Hone.
        destruct (Z.eq_dec d 0) as [->|Hne]; [congruence|lia].
      + cbn [nadd nmul Number_R]. pose proof (kernelWeight_pos d) as Hw.
        repeat split.
        * lra.
        * intros Hpos. destruct (Z.eq_dec d 0) as [->|Hne].
          -- rewrite kernelWeight_0. lra.
          -- assert (1 <= tw) by (apply Hone; lia). lra.
        * intros Hu. rewrite (Ha0 Hu), (Hu d Ed). ring.
        * intros Hu. rewrite (Ha1 Hu), (Hu d Ed). ring. }
  unfold Inv in H. destruct H as (_ & Hone & Hs0 & Hs1).
  repeat split; [apply Hone; lia|assumption|assumption].
Qed.

Lemma weightedAverage_exact (totalWeight s : R) :
  1 <= totalWeight -> weightedAverage settings totalWeight s = s / totalWeight.
Proof.
  intros H. unfold weightedAverage. cbn.
  rewrite Rltb_ge by lra. reflexivity.
Qed.

Lemma inside_grid (n i d : Z) :
  ((i + d <? 0) || (i + d >=? n))%Z = false <-> (0 <= i + d < n)%Z.
Proof.
  rewrite orb_false_iff, Z.ltb_ge, Z.geb_leb, Z.leb_gt. lia.
Qed.

Lemma horizontalSums_spec (data : list R) (columns x y : Z)
    (u0 u1 totalWeight s0 s1 : R) :
  (0 <= x < columns)%Z ->
  horizontalSums data columns sigma (Math_round (ofZ 3 * sigma)%num) x y =
    (totalWeight, s0, s1) ->
  1 <= totalWeight /\
  ((forall x', (0 <= x' < columns)%Z ->
      getF32 data (2 * (y * columns + x') + 0) = u0) -> s0 = u0 * totalWeight) /\
  ((forall x', (0 <= x' < columns)%Z ->
      getF32 data (2 * (y * columns + x') + 1) = u1) -> s1 = u1 * totalWeight).
Proof.
  intros Hx Hsums. unfold horizontalSums in Hsums.
  destruct (@kernel_sums (Math_round (ofZ 3 * sigma)%num)
              (fun d => ((x + d <? 0) || (x + d >=? columns))%Z)
              (fun d => getF32 data (2 * (y * columns + (x + d)) + 0))
              (fun d => getF32 data (2 * (y * columns + (x + d)) + 1))
              u0 u1 totalWeight s0 s1 halfRadius_nonneg)
    as (Hone & Hs0 & Hs1).
  - apply inside_grid. lia.
  - exact Hsums.
  - repeat split; [exact Hone| |].
    + intros Hu. apply Hs0. intros d Hd. apply Hu. now apply inside_grid.
    + intros Hu. apply Hs1. intros d Hd. apply Hu. now apply inside_grid.
Qed.

Lemma verticalSums_spec (horizontal : list R) (columns rows x y : Z)
    (u0 u1 totalWeight s0 s1 : R) :
  (0 <= y < rows)%Z ->
  verticalSums horizontal columns rows sigma
               (Math_round (ofZ 3 * sigma)%num) x y = (totalWeight, s0, s1) ->
  1 <= totalWeight /\
  ((forall y', (0 <= y' < rows)%Z ->
      getF32 horizontal (2 * (y' * columns + x) + 0) = u0) -> s0 = u0 * totalWeight) /\
  ((forall y', (0 <= y' < rows)%Z ->
      getF32 horizontal (2 * (y' * columns + x) + 1) = u1) -> s1 = u1 * totalWeight).
Proof.
  intros Hy Hsums. unfold verticalSums in Hsums.
  destruct (@kernel_sums (Math_round (ofZ 3 * sigma)%num)
              (fun d => ((y + d <? 0) || (y + d >=? rows))%Z)
              (fun d => getF32 horizontal (2 * ((y + d) * columns + x) + 0))
              (fun d => getF32 horizontal (2 * ((y + d) * columns + x) + 1))
              u0 u1 totalWeight s0 s1 halfRadius_nonneg)
    as (Hone & Hs0 & Hs1).
  - apply inside_grid. lia.
  - exact Hsums.
  - repeat split; [exact Hone| |].
    + intros Hu. apply Hs0. intros d Hd. apply Hu. now apply inside_grid.
    + intros Hu. apply Hs1. intros d Hd. apply Hu. now apply inside_grid.
Qed.

End SmoothExact.

Section SmoothTheorems.
Variable settings : Settings R.
Variable sigma : R.
Hypothesis sigma_pos : (0 < sigma)%R.
Hypothesis minWeight_le_1 : (minWeightThreshold settings <= 1)%R.

Local Open Scope R_scope.

Lemma newFloat32Array_length (n : nat) :
  length (newFloat32Array (num := R) n) = n.
Proof. apply repeat_length. Qed.

Lemma horizontalPass_cells (data : list R) (columns rows halfRadius : Z) :
  (0 <= columns)%Z -> (0 <= rows)%Z ->
  Z.of_nat (length data) = (2 * columns * rows)%Z ->
  length (horizontalPass settings data columns rows sigma halfRadius) = length data /\
  forall x y, (0 <= x < columns)%Z -> (0 <= y < rows)%Z ->
    cellHolds settings (horizontalPass settings data columns rows sigma halfRadius)
              columns x y (horizontalSums data columns sigma halfRadius x y).
Proof.
  intros Hc Hr Hlen. unfold horizontalPass.
  destruct (@rowMajor_pass R _ settings columns rows Hc Hr
              (fun x y => horizontalSums data columns sigma halfRadius x y)
              (newFloat32Array (length data))) as [Hl Hcells].
  - now rewrite newFloat32Array_length.
  - rewrite newFloat32Array_length in Hl. split; [exact Hl|exact Hcells].
Qed.

Lemma verticalPass_cells (data horizontal : list R) (columns rows halfRadius : Z) :
  (0 <= columns)%Z -> (0 <= rows)%Z ->
  Z.of_nat (length data) = (2 * columns * rows)%Z ->
  length (verticalPass settings data horizontal columns rows sigma halfRadius)
    = length data /\
  forall x y, (0 <= x < columns)%Z -> (0 <= y < rows)%Z ->
    cellHolds settings
      (verticalPass settings data horizontal columns rows sigma halfRadius)
      columns x y (verticalSums horizontal columns rows sigma halfRadius x y).
Proof.
  intros Hc Hr Hlen. unfold verticalPass.
  destruct (@columnMajor_pass R _ settings columns rows Hc Hr
              (fun x y => verticalSums horizontal columns rows sigma halfRadius x y)
              (newFloat32Array (length data))) as [Hl Hcells].
  - now rewrite newFloat32Array_length.
  - rewrite newFloat32Array_length in Hl. split; [exact Hl|exact Hcells].
Qed.

(** C10: in exact arithmetic, for every grid and every positive sigma
    (and a threshold of at most 1, as 0.001 is), the total weight
    accumulated for a cell of the grid is at least 1 in the horizontal
    and in the vertical pass, so the test against the threshold fails
    and the value stored is the quotient of the weighted sum by the
    total weight; on a grid of the declared shape every cell of the
    result of [smooth] is such a quotient. *)
Theorem smooth_total_weight_at_least_one (data horizontal : list R)
    (columns rows x y : Z) :
  (0 <= x < columns)%Z -> (0 <= y < rows)%Z ->
  let halfRadius := Math_round (ofZ 3 * sigma)%num in
  (forall totalWeight s0 s1,
     horizontalSums data columns sigma halfRadius x y = (totalWeight, s0, s1) ->
     1 <= totalWeight /\
     (totalWeight <? minWeightThreshold settings)%num = false /\
     weightedAverage settings totalWeight s0 = s0 / totalWeight /\
     weightedAverage settings totalWeight s1 = s1 / totalWeight) /\
  (forall totalWeight s0 s1,
     verticalSums horizontal columns rows sigma halfRadius x y
       = (totalWeight, s0, s1) ->
     1 <= totalWeight /\
     (totalWeight <? minWeightThreshold settings)%num = false /\
     weightedAverage settings totalWeight s0 = s0 / totalWeight /\
     weightedAverage settings totalWeight s1 = s1 / totalWeight) /\
  (Z.of_nat (length data) = (2 * columns * rows)%Z ->
   exists totalWeight s0 s1,
     verticalSums (horizontalPass settings data columns rows sigma halfRadius)
                  columns rows sigma halfRadius x y = (totalWeight, s0, s1) /\
     1 <= totalWeight /\
     getF32 (smooth settings data columns rows sigma) (2 * (y * columns + x) + 0)
       = s0 / totalWeight /\
     getF32 (smooth settings data columns rows sigma) (2 * (y * columns + x) + 1)
       = s1 / totalWeight).
Proof.
  intros Hx Hy halfRadius. split; [|split].
  - intros tw s0 s1 Hsums.
    destruct (@horizontalSums_spec sigma sigma_pos data columns x y 0 0 tw s0 s1
                Hx Hsums) as (Hone & _).
    repeat split; [exact Hone| |now apply weightedAverage_exact..].
    cbn. apply Rltb_ge. lra.
  - intros tw s0 s1 Hsums.
    destruct (@verticalSums_spec sigma sigma_pos horizontal columns rows x y 0 0
                tw s0 s1 Hy Hsums) as (Hone & _).
    repeat split; [exact Hone| |now apply weightedAverage_exact..].
    cbn. apply Rltb_ge. lra.
  - intros Hlen.
    destruct (verticalSums (horizontalPass settings data columns rows sigma halfRadius)
                columns rows sigma halfRadius x y) as [[tw s0] s1] eqn:Hsums.
    exists tw, s0, s1.
    destruct (@verticalSums_spec sigma sigma_pos _ columns rows x y 0 0
                tw s0 s1 Hy Hsums) as (Hone & _).
    split; [reflexivity|]. split; [exact Hone|].
    destruct (@verticalPass_cells data
                (horizontalPass settings data columns rows sigma halfRadius)
                columns rows halfRadius ltac:(lia) ltac:(lia) Hlen) as [_ Hcells].
    specialize (Hcells x y Hx Hy). rewrite Hsums in Hcells.
    unfold cellHolds in Hcells. destruct Hcells as [H0 H1].
    unfold smooth. fold halfRadius. cbv zeta.
    rewrite H0, H1. cbn [fround Number_R].
    now rewrite !weightedAverage_exact by assumption.
Qed.

(** A pass over a grid whose cells all hold [(u, v)], reading from an
    array [src] with that content, stores [(u, v)] in every cell. *)
Lemma uniform_cell (a : list R) (columns x y : Z) (u v totalWeight s0 s1 : R) :
  cellHolds settings a columns x y (totalWeight, s0, s1) ->
  1 <= totalWeight -> s0 = u * totalWeight -> s1 = v * totalWeight ->
  getF32 a (2 * (y * columns + x) + 0) = u /\
  getF32 a (2 * (y * columns + x) + 1) = v.
Proof.
  intros [H0 H1] Hone -> ->. rewrite H0, H1. cbn [fround Number_R].
  rewrite !weightedAverage_exact by assumption.
  split; field; lra.
Qed.

(** Each pass leaves a uniform grid as it is. *)
Lemma horizontalPass_uniform (data : list R) (columns rows halfRadius : Z)
    (u v : R) :
  halfRadius = Math_round (ofZ 3 * sigma)%num ->
  (0 <= columns)%Z -> (0 <= rows)%Z ->
  Z.of_nat (length data) = (2 * columns * rows)%Z ->
  (forall x y, (0 <= x < columns)%Z -> (0 <= y < rows)%Z ->
     getF32 data (2 * (y * columns + x) + 0) = u /\
     getF32 data (2 * (y * columns + x) + 1) = v) ->
  horizontalPass settings data columns rows sigma halfRadius = data.
Proof.
  intros -> Hc Hr Hlen Huni.
  set (halfRadius := Math_round (ofZ 3 * sigma)%num).
  destruct (@horizontalPass_cells data columns rows halfRadius Hc Hr Hlen)
    as [Hl Hcells].
  apply getF32_ext; [exact Hl|].
  intros i Hi. rewrite Hl, Hlen in Hi.
  destruct (@cell_index_surjective columns rows i Hc Hi)
    as (x & y & c & Hx & Hy & Hch & ->).
  specialize (Hcells x y Hx Hy).
  destruct (horizontalSums data columns sigma halfRadius x y)
    as [[tw s0] s1] eqn:Hsums.
  destruct (@horizontalSums_spec sigma sigma_pos data columns x y u v tw s0 s1
              Hx Hsums) as (Hone & Hs0 & Hs1).
  destruct (@uniform_cell _ columns x y u v tw s0 s1 Hcells Hone) as [G0 G1].
  - apply Hs0. intros x' Hx'. now apply Huni.
  - apply Hs1. intros x' Hx'. now apply Huni.
  - destruct (Huni x y Hx Hy) as [D0 D1].
    destruct Hch as [-> | ->]; congruence.
Qed.

Lemma verticalPass_uniform (data : list R) (columns rows halfRadius : Z)
    (u v : R) :
  halfRadius = Math_round (ofZ 3 * sigma)%num ->
  (0 <= columns)%Z -> (0 <= rows)%Z ->
  Z.of_nat (length data) = (2 * columns * rows)%Z ->
  (forall x y, (0 <= x < columns)%Z -> (0 <= y < rows)%Z ->
     getF32 data (2 * (y * columns + x) + 0) = u /\
     getF32 data (2 * (y * columns + x) + 1) = v) ->
  verticalPass settings data data columns rows sigma halfRadius = data.
Proof.
  intros -> Hc Hr Hlen Huni.
  set (halfRadius := Math_round (ofZ 3 * sigma)%num).
  destruct (@verticalPass_cells data data columns rows halfRadius Hc Hr Hlen)
    as [Hl Hcells].
  apply getF32_ext; [exact Hl|].
  intros i Hi. rewrite Hl, Hlen in Hi.
  destruct (@cell_index_surjective columns rows i Hc Hi)
    as (x & y & c & Hx & Hy & Hch & ->).
  specialize (Hcells x y Hx Hy).
  destruct (verticalSums data columns rows sigma halfRadius x y)
    as [[tw s0] s1] eqn:Hsums.
  destruct (@verticalSums_spec sigma sigma_pos data columns rows x y u v tw s0 s1
              Hy Hsums) as (Hone & Hs0 & Hs1).
  destruct (@uniform_cell _ columns x y u v tw s0 s1 Hcells Hone) as [G0 G1].
  - apply Hs0. intros y' Hy'. now apply Huni.
  - apply Hs1. intros y' Hy'. now apply Huni.
  - destruct (Huni x y Hx Hy) as [D0 D1].
    destruct Hch as [-> | ->]; congruence.
Qed.

(** C6: in exact arithmetic, for every grid of the declared shape whose
    cells all hold the same [(u, v)] and every positive sigma (with a
    threshold of at most 1), [smooth] returns its input: the horizontal
    pass returns the grid, and so does the vertical pass applied to it. *)
Theorem smooth_uniform_grid (data : list R) (columns rows : Z) (u v : R) :
  (0 <= columns)%Z -> (0 <= rows)%Z ->
  Z.of_nat (length data) = (2 * columns * rows)%Z ->
  (forall x y, (0 <= x < columns)%Z -> (0 <= y < rows)%Z ->
     getF32 data (2 * (y * columns + x) + 0) = u /\
     getF32 data (2 * (y * columns + x) + 1) = v) ->
  smooth settings data columns rows sigma = data.
Proof.
  intros Hc Hr Hlen Huni. unfold smooth. cbv zeta.
  rewrite (@horizontalPass_uniform data columns rows _ u v eq_refl Hc Hr Hlen Huni).
  exact (@verticalPass_uniform data columns rows _ u v eq_refl Hc Hr Hlen Huni).
Qed.

End SmoothTheorems.

(** ** Cancellation and the two processors *)

Section Cancellation.
Context {num : Type} {NumOps : Number num} {Rand : RandomSource num}.
Variable settings : Settings num.

Lemma buildMesh_world_independent (world1 world2 : World num)
    (streamLines : list (list (StreamLineVertex num)))
    (mesh1 mesh2 : StreamLinesMesh num) :
  run (buildMesh settings world1 streamLines) = Resolved mesh1 ->
  run (buildMesh settings world2 streamLines) = Resolved mesh2 ->
  mesh1 = mesh2.
Proof.
  rewrite !buildMesh_run. intros H1 H2.
  destruct (meshLoop settings world1 _ _ _ _ _) as [[acc1 s1]|e1] eqn:E1;
    [|discriminate].
  destruct (meshLoop settings world2 _ _ _ _ _) as [[acc2 s2]|e2] eqn:E2;
    [|discriminate].
  injection H1 as <-. injection H2 as <-.
  f_equal. eapply meshLoop_world_independent; eassumption.
Qed.

Lemma buildMesh_rejected (world : World num)
    (streamLines : list (list (StreamLineVertex num))) (e : Rejection) :
  Forall (fun line => 1 <= length line) streamLines ->
  run (buildMesh settings world streamLines) = Rejected e ->
  e = AbortError /\ exists k, signal_aborted world k = true.
Proof.
  intros Hne. rewrite buildMesh_run.
  destruct (meshLoop _ _ _ _ _ _ _) as [[acc s]|e'] eqn:E; [discriminate|].
  intros H. injection H as ->.
  apply meshLoop_rejected in E. destruct E as [E|[_ Hex]]; [exact E|].
  exfalso. apply Exists_exists in Hex. destruct Hex as (line & Hin & ->).
  rewrite Forall_forall in Hne. specialize (Hne [] Hin). cbn in Hne. lia.
Qed.

(** While no round of the loop finds more than the quantum elapsed, no
    checkpoint is reached and the loop runs to its end, whatever the
    signal. *)
Lemma meshLoop_no_checkpoint (world : World num)
    (streamLines : list (list (StreamLineVertex num))) :
  Forall (fun line => 1 <= length line) streamLines ->
  forall (rand : RandState) (restTime : num) (acc : @MeshAcc num) (s : Sched),
  (forall i, i < length streamLines ->
     (flowProcessingQuanta settings <?
        performance_now world (clockReads s + i) - restTime)%num = false) ->
  exists acc' s',
    meshLoop settings world streamLines rand restTime acc s = Resolved (acc', s').
Proof.
  induction 1 as [|line more Hline _ IH]; intros rand restTime acc s Hquiet.
  - cbn. unfold ret. eauto.
  - rewrite meshLoop_cons. cbv zeta.
    pose proof (Hquiet 0 ltac:(cbn; lia)) as H0.
    rewrite Nat.add_0_r in H0. rewrite H0.
    destruct (lastVertexOf_nonempty line Hline) as [lv ->].
    apply IH. cbn [clockReads]. intros i Hi.
    specialize (Hquiet (S i) ltac:(cbn; lia)).
    now rewrite Nat.add_succ_r in Hquiet.
Qed.

(** If the signal is set when the first checkpoint is reached, the loop
    rejects there. *)
Lemma meshLoop_first_checkpoint (world : World num)
    (streamLines : list (list (StreamLineVertex num))) :
  Forall (fun line => 1 <= length line) streamLines ->
  forall (rand : RandState) (restTime : num) (acc : @MeshAcc num) (s : Sched),
  signal_aborted world (checkpoints s) = true ->
  (exists i, i < length streamLines /\
     (flowProcessingQuanta settings <?
        performance_now world (clockReads s + i) - restTime)%num = true) ->
  meshLoop settings world streamLines rand restTime acc s = Rejected AbortError.
Proof.
  induction 1 as [|line more Hline _ IH]; intros rand restTime acc s Hsig (i & Hi & Hlate).
  - cbn in Hi. lia.
  - rewrite meshLoop_cons. cbv zeta.
    destruct (flowProcessingQuanta settings <?
                performance_now world (clockReads s) - restTime)%num eqn:Etest.
    + now rewrite Hsig.
    + destruct (lastVertexOf_nonempty line Hline) as [lv ->].
      apply IH; [exact Hsig|].
      destruct i as [|i].
      * rewrite Nat.add_0_r in Hlate. congruence.
      * exists i. split; [cbn in Hi; lia|].
        cbn [clockReads]. now rewrite Nat.add_succ_r in Hlate.
Qed.

(** A loop that runs to its end found the signal unset at every
    checkpoint that it reached. *)
Lemma meshLoop_checkpoints (world : World num)
    (streamLines : list (list (StreamLineVertex num))) :
  forall (rand : RandState) (restTime : num) (acc acc' : @MeshAcc num)
         (s s' : Sched),
  meshLoop settings world streamLines rand restTime acc s = Resolved (acc', s') ->
  checkpoints s <= checkpoints s' /\
  forall k, checkpoints s <= k < checkpoints s' -> signal_aborted world k = false.
Proof.
  induction streamLines as [|line more IH]; intros rand restTime acc acc' s s' Hrun.
  - cbn in Hrun. injection Hrun as _ <-. split; [lia|]. intros k Hk. lia.
  - rewrite meshLoop_cons in Hrun. cbv zeta in Hrun.
    destruct (lastVertexOf line) as [lv|].
    + destruct (flowProcessingQuanta settings <?
                  performance_now world (clockReads s) - restTime)%num.
      * destruct (signal_aborted world (checkpoints s)) eqn:Hsig; [discriminate|].
        apply IH in Hrun. cbn [checkpoints] in Hrun. destruct Hrun as [Hle Hk].
        split; [lia|]. intros k Hrange.
        destruct (Nat.eq_dec k (checkpoints s)) as [->|Hne]; [exact Hsig|].
        apply Hk. lia.
      * apply IH in Hrun. exact Hrun.
    + destruct (flowProcessingQuanta settings <?
                  performance_now world (clockReads s) - restTime)%num;
        [destruct (signal_aborted world (checkpoints s))|]; discriminate.
Qed.

End Cancellation.

Section PipelineProperties.
Context {num : Type} {NumOps : Number num} {MathOps : MathLib num}
        {Rand : RandomSource num}.
Variable settings : Settings num.
Variable flowData : FlowData num.

Lemma streamLines_nonempty :
  Forall (fun line => 1 <= length line)
    (getStreamLines settings (createFlowFieldFromData settings flowData)
       (columns flowData) (rows flowData) (cellSize flowData)).
Proof. apply getStreamLines_nonempty. Qed.

Lemma streamLines_length :
  length (getStreamLines settings (createFlowFieldFromData settings flowData)
            (columns flowData) (rows flowData) (cellSize flowData))
  = linesPerVisualization settings.
Proof.
  destruct (getStreamLines_spec settings
              (createFlowFieldFromData settings flowData)
              (columns flowData) (rows flowData) (cellSize flowData)) as [-> _].
  now rewrite length_map, length_seq.
Qed.

(** A call that is never cancelled returns a mesh. *)
Lemma createStreamLinesMesh_total (world : World num) :
  neverAborted world ->
  exists mesh, run (createStreamLinesMesh settings world flowData) = Resolved mesh.
Proof.
  intros Hquiet. unfold createStreamLinesMesh. cbv zeta.
  apply buildMesh_total; [exact Hquiet|apply streamLines_nonempty].
Qed.

(** Two calls on the same grid that return a mesh return the same one,
    whatever their clocks and signals. *)
Lemma createStreamLinesMesh_deterministic (world1 world2 : World num)
    (mesh1 mesh2 : StreamLinesMesh num) :
  run (createStreamLinesMesh settings world1 flowData) = Resolved mesh1 ->
  run (createStreamLinesMesh settings world2 flowData) = Resolved mesh2 ->
  mesh1 = mesh2.
Proof. apply buildMesh_world_independent. Qed.

(** C9 (amended): the driver examines the signal only at the checkpoints
    of the mesh loop, which a round reaches when more than
    [flowProcessingQuanta] have elapsed since the last one (since the
    start, for the first).  (1) A call either rejects with [AbortError]
    or returns the complete mesh, the one that an uncancelled call
    returns: never a partial mesh.  (2) When no round finds the quantum
    elapsed, no checkpoint is reached and the call returns the mesh,
    whatever the signal, also when it was set before the call.  (3) When
    the signal is set by the time the first checkpoint is reached, the
    call rejects there with [AbortError].  (4) A call that returns a
    mesh found the signal unset at every checkpoint it reached: a call
    stops at the first checkpoint at which the signal is set. *)
Theorem cancellation_only_at_checkpoints (world : World num) :
  let call := run (createStreamLinesMesh settings world flowData) in
  let late i :=
    (flowProcessingQuanta settings <?
       performance_now world (S i) - performance_now world 0)%num in
  (exists mesh,
     (forall world', neverAborted world' ->
        run (createStreamLinesMesh settings world' flowData) = Resolved mesh) /\
     (call = Resolved mesh \/ call = Rejected AbortError)) /\
  ((forall i, i < linesPerVisualization settings -> late i = false) ->
   exists mesh, call = Resolved mesh) /\
  (signal_aborted world 0 = true ->
   (exists i, i < linesPerVisualization settings /\ late i = true) ->
   call = Rejected AbortError) /\
  (forall mesh s',
     createStreamLinesMesh settings world flowData
       {| clockReads := 0; checkpoints := 0 |} = Resolved (mesh, s') ->
     forall k, k < checkpoints s' -> signal_aborted world k = false).
Proof.
  intros call late. split; [|split; [|split]].
  - destruct (createStreamLinesMesh_total (world := quietWorld))
      as [mesh Hmesh]; [intros k; reflexivity|].
    exists mesh. split.
    + intros world' Hquiet.
      destruct (createStreamLinesMesh_total Hquiet) as [mesh' Hmesh'].
      rewrite Hmesh'. f_equal.
      eapply createStreamLinesMesh_deterministic; eassumption.
    + destruct call as [mesh1|e] eqn:Ecall.
      * left. f_equal.
        eapply createStreamLinesMesh_deterministic; eassumption.
      * right. f_equal. unfold call, createStreamLinesMesh in Ecall.
        apply buildMesh_rejected in Ecall; [tauto|apply streamLines_nonempty].
  - intros Hearly. unfold call, createStreamLinesMesh. cbv zeta.
    rewrite buildMesh_run.
    destruct (@meshLoop_no_checkpoint num NumOps Rand settings world _
                streamLines_nonempty createRand (performance_now world 0)
                {| vertexCount := 0; vertexDataAcc := []; indexDataAcc := [] |}
                {| clockReads := 1; checkpoints := 0 |}) as (acc & s' & ->).
    + rewrite streamLines_length. intros i Hi. apply (Hearly i Hi).
    + eauto.
  - intros Hsig (i & Hi & Hlate). unfold call, createStreamLinesMesh. cbv zeta.
    rewrite buildMesh_run.
    rewrite (@meshLoop_first_checkpoint num NumOps Rand settings world _
               streamLines_nonempty createRand (performance_now world 0)
               {| vertexCount := 0; vertexDataAcc := []; indexDataAcc := [] |}
               {| clockReads := 1; checkpoints := 0 |} Hsig).
    + reflexivity.
    + exists i. rewrite streamLines_length. split; [exact Hi|exact Hlate].
  - intros mesh s' Hrun k Hk.
    unfold createStreamLinesMesh, buildMesh, bind, now, ret in Hrun.
    cbn [clockReads checkpoints] in Hrun.
    destruct (meshLoop _ _ _ _ _ _ _) as [[acc s1]|e] eqn:Hloop; [|discriminate].
    injection Hrun as _ <-.
    apply meshLoop_checkpoints in Hloop. cbn [checkpoints] in Hloop.
    apply Hloop. lia.
Qed.

(** C8: for the same grid, settings and random source, whenever the main
    processor and the worker processor both return a mesh, the two
    meshes are equal element for element; and when no signal is set and
    the worker is reached, both return the mesh. *)
Theorem processors_return_the_same_mesh (world world' workerWorld : World num)
    (connected : bool) :
  (forall mesh1 mesh2,
     MainFlowProcessor_createStreamLinesMesh settings world flowData
       = Resolved mesh1 ->
     WorkerFlowProcessor_createStreamLinesMesh settings connected world'
       workerWorld flowData = Resolved mesh2 ->
     vertexData mesh1 = vertexData mesh2 /\ indexData mesh1 = indexData mesh2) /\
  (neverAborted world -> neverAborted world' -> neverAborted workerWorld ->
   connected = true ->
   exists mesh,
     MainFlowProcessor_createStreamLinesMesh settings world flowData
       = Resolved mesh /\
     WorkerFlowProcessor_createStreamLinesMesh settings connected world'
       workerWorld flowData = Resolved mesh).
Proof.
  assert (Hfd : {| data := data flowData; columns := columns flowData;
                   rows := rows flowData; cellSize := cellSize flowData |}
                = flowData) by (now destruct flowData).
  unfold MainFlowProcessor_createStreamLinesMesh,
         WorkerFlowProcessor_createStreamLinesMesh, workerCreateStreamLinesMesh.
  cbn [t_buffer t_columns t_rows t_cellSize]. rewrite Hfd. split.
  - intros mesh1 mesh2 Hmain Hworker.
    destruct (negb connected); [discriminate|].
    destruct (signal_aborted world' 0); [discriminate|].
    destruct (run (createStreamLinesMesh settings workerWorld flowData))
      as [mesh|e] eqn:Eworker; [|discriminate].
    destruct (signal_aborted world' 1); [discriminate|].
    injection Hworker as <-. cbn [vertexData indexData vertexBuffer indexBuffer].
    rewrite (createStreamLinesMesh_deterministic _ _ Hmain Eworker). now split.
  - intros Hq Hq' Hqw ->.
    destruct (createStreamLinesMesh_total Hq) as [mesh Hmesh].
    destruct (createStreamLinesMesh_total Hqw) as [mesh' Hmesh'].
    exists mesh. split; [exact Hmesh|].
    cbn [negb]. rewrite !Hq', Hmesh'.
    cbn [vertexData indexData vertexBuffer indexBuffer].
    rewrite (createStreamLinesMesh_deterministic _ _ Hmesh Hmesh').
    now destruct mesh'.
Qed.

End PipelineProperties.

(** ** A cancelled call that returns a mesh *)

Section CancelledCall.

Local Open Scope R_scope.

Lemma uniformGrid_cells (x y : Z) :
  (0 <= x < 2)%Z -> (0 <= y < 2)%Z ->
  getF32 (data (uniformGrid (num := R))) (2 * (y * 2 + x) + 0) = 1 /\
  getF32 (data (uniformGrid (num := R))) (2 * (y * 2 + x) + 1) = 0.
Proof.
  intros Hx Hy.
  assert (Ex : x = 0%Z \/ x = 1%Z) by lia.
  assert (Ey : y = 0%Z \/ y = 1%Z) by lia.
  destruct Ex as [-> | ->], Ey as [-> | ->]; split; reflexivity.
Qed.

Lemma smooth_uniformGrid :
  smooth defaultSettings (data (uniformGrid (num := R))) 2 2 (ofZ 10)
  = data uniformGrid.
Proof.
  assert (Hs : 0 < ofZ (num := R) 10) by (cbn; lra).
  assert (Hm : minWeightThreshold (defaultSettings (num := R)) <= 1) by (cbn; lra).
  unfold smooth. cbv zeta.
  rewrite (@horizontalPass_uniform defaultSettings (ofZ 10) Hs Hm
             (data uniformGrid) 2 2 _ 1 0 eq_refl ltac:(lia) ltac:(lia)
             eq_refl uniformGrid_cells).
  exact (@verticalPass_uniform defaultSettings (ofZ 10) Hs Hm
           (data uniformGrid) 2 2 _ 1 0 eq_refl ltac:(lia) ltac:(lia)
           eq_refl uniformGrid_cells).
Qed.

Lemma Math_round_IZR (z : Z) : Math_round (IZR z) = z.
Proof. cbn. apply Zfloor_eq. lra. Qed.

(** The field of the uniform grid at the cell (1, 1) and outside. *)
Lemma uniformGrid_field_inside :
  createFlowFieldFromData defaultSettings uniformGrid 1 1 = (1, 0).
Proof.
  unfold createFlowFieldFromData.
  change (smoothing defaultSettings) with (ofZ (num := R) 10).
  change (columns uniformGrid) with 2%Z. change (rows uniformGrid) with 2%Z.
  rewrite smooth_uniformGrid. cbv zeta.
  rewrite (Math_round_IZR 1). reflexivity.
Qed.

Lemma uniformGrid_field_outside :
  createFlowFieldFromData defaultSettings uniformGrid 11 1 = (0, 0).
Proof.
  unfold createFlowFieldFromData. cbv zeta.
  rewrite (Math_round_IZR 11). reflexivity.
Qed.

Lemma uniformGrid_trace :
  length (trace defaultSettings
            (createFlowFieldFromData defaultSettings uniformGrid) 1 1 1) = 2%nat.
Proof.
  set (f := createFlowFieldFromData defaultSettings uniformGrid).
  assert (Hsqrt : sqrt (1 * (1 / 10) * (1 * (1 / 10)) + 0 * (1 / 10) * (0 * (1 / 10)))
                  = 1 / 10).
  { replace (1 * (1 / 10) * (1 * (1 / 10)) + 0 * (1 / 10) * (0 * (1 / 10)))
      with ((1 / 10) * (1 / 10)) by lra.
    apply sqrt_square. lra. }
  assert (Hstep1 : traceStep defaultSettings f 1 1 0 = Advanced (1 / 10) 11 1 100).
  { unfold traceStep, f. rewrite uniformGrid_field_inside. cbn.
    rewrite Hsqrt. rewrite Rltb_ge by lra.
    f_equal; field. }
  assert (Hstep2 : traceStep defaultSettings f 11 1 100 = Stopped).
  { unfold traceStep, f. rewrite uniformGrid_field_outside. cbn.
    replace (0 * (1 / 10) * (0 * (1 / 10)) + 0 * (1 / 10) * (0 * (1 / 10)))
      with 0 by lra.
    rewrite sqrt_0. rewrite Rltb_lt by lra. reflexivity. }
  unfold trace. cbv zeta.
  change (verticesPerLine defaultSettings) with (S (S 98)).
  cbn [traceLoop]. change (ofZ (num := R) 0) with 0.
  rewrite Hstep1, Hstep2. reflexivity.
Qed.

Lemma segmentCount_pairs {A : Type} (streamLines : list (list A)) :
  Forall (fun line => length line = 2%nat) streamLines ->
  segmentCount streamLines = length streamLines.
Proof.
  induction 1 as [|line more Hline _ IH]; [reflexivity|].
  rewrite segmentCount_cons, IH, Hline. reflexivity.
Qed.

Lemma uniformGrid_streamLines :
  let lines := getStreamLines (Rand := halfRand) defaultSettings
                 (createFlowFieldFromData defaultSettings uniformGrid) 2 2 1 in
  Forall (fun line => length line = 2%nat) lines /\ length lines = 4000%nat.
Proof.
  intros lines.
  destruct (getStreamLines_spec (Rand := halfRand) defaultSettings
              (createFlowFieldFromData defaultSettings uniformGrid) 2 2 1)
    as [Hlines _].
  fold lines in Hlines. rewrite Hlines. split.
  - apply Forall_forall. intros line Hin. apply in_map_iff in Hin.
    destruct Hin as (i & <- & _).
    assert (Hseed : forall k : nat,
               Math_round (draw (Rand := halfRand) k * ofZ 2)%num = 1%Z).
    { intros k. cbn. apply Zfloor_eq. lra. }
    unfold seedX, seedY. rewrite !Hseed. apply uniformGrid_trace.
  - rewrite length_map, length_seq. reflexivity.
Qed.

(** C9, counterexample: the signal is set before the call and stays set,
    the clock does not advance by more than the quantum, and the call of
    the main processor on the uniform grid returns a mesh, with the
    6 * 4000 indices of its 4000 segments. *)
Lemma cancelled_before_start_returns_mesh :
  signal_aborted (abortedWorld (num := R)) 0 = true /\
  exists mesh,
    MainFlowProcessor_createStreamLinesMesh (Rand := halfRand) defaultSettings
      abortedWorld uniformGrid = Resolved mesh /\
    length (indexData mesh) = (6 * 4000)%nat.
Proof.
  split; [reflexivity|].
  unfold MainFlowProcessor_createStreamLinesMesh, createStreamLinesMesh.
  cbv zeta.
  change (columns uniformGrid) with 2%Z. change (rows uniformGrid) with 2%Z.
  change (cellSize (uniformGrid (num := R))) with 1.
  destruct uniformGrid_streamLines as [Hpairs Hcount].
  set (lines := getStreamLines defaultSettings _ 2 2 1) in *.
  assert (Hne : Forall (fun line => (1 <= length line)%nat) lines).
  { eapply Forall_impl; [|exact Hpairs]. cbv beta. intros line ->. lia. }
  destruct (@meshLoop_no_checkpoint R _ halfRand defaultSettings abortedWorld
              lines Hne createRand (performance_now abortedWorld 0)
              {| vertexCount := 0; vertexDataAcc := []; indexDataAcc := [] |}
              {| clockReads := 1; checkpoints := 0 |}) as (acc & s' & Hloop).
  { intros i _. cbn. apply Rltb_ge. lra. }
  assert (Hrun : run (buildMesh (Rand := halfRand) defaultSettings abortedWorld lines)
                 = Resolved (toMesh acc)).
  { rewrite buildMesh_run, Hloop. reflexivity. }
  exists (toMesh acc). split; [exact Hrun|].
  destruct (buildMesh_vertexData _ _ _ Hrun) as [_ Hidx].
  rewrite Hidx, (segmentCount_pairs Hpairs), Hcount. reflexivity.
Qed.

End CancelledCall.

(** ** The theorems at concrete inputs *)

Lemma buildMesh_counts_example :
  (neverAborted (quietWorld (num := float)) ->
   exists mesh,
     run (buildMesh (num := float) (Rand := halfRand) defaultSettings quietWorld
            exampleLines)
     = Resolved mesh) /\
  (forall mesh,
     run (buildMesh (num := float) (Rand := halfRand) defaultSettings quietWorld
            exampleLines)
     = Resolved mesh ->
     let n := segmentCount (exampleLines (num := float)) in
     length (vertexData mesh) = 9 * (4 * n) /\
     length (indexData mesh) = 6 * n /\
     Forall (fun i => 0 <= i < 4 * Z.of_nat n)%Z (indexData mesh) /\
     indexData mesh = map toUint32 (quadIndices 0 n) /\
     ((4 * Z.of_nat n <= 2 ^ 32)%Z -> indexData mesh = quadIndices 0 n)).
Proof.
  apply (@buildMesh_counts float _ halfRand defaultSettings quietWorld exampleLines).
  repeat constructor.
Defined.

Lemma trace_length_and_exact_times_example :
  (0 < segmentLength (defaultSettings (num := R)))%R /\
  (0 < minSpeedThreshold (defaultSettings (num := R)))%R /\
  let line := trace (defaultSettings (num := R)) eastField 0%R 0%R 1%R in
  forall i j, i < j < length line ->
    (time (nth i line noVertex) < time (nth j line noVertex))%R.
Proof.
  assert (Hs : (0 < segmentLength (defaultSettings (num := R)))%R) by (cbn; lra).
  assert (Hm : (0 < minSpeedThreshold (defaultSettings (num := R)))%R) by (cbn; lra).
  split; [exact Hs|]. split; [exact Hm|].
  exact (proj2 trace_length_and_exact_times defaultSettings eastField
           0%R 0%R 1%R Hs Hm).
Defined.

Lemma trace_segments_not_degenerate_example :
  (0 < segmentLength (defaultSettings (num := R)))%R /\
  (0 < minSpeedThreshold (defaultSettings (num := R)))%R /\
  (1 <> 0)%R /\
  let line := trace (defaultSettings (num := R)) eastField 0%R 0%R 1%R in
  forall i, 1 <= i < length line ->
    (0 < speedDivisor (nth (i - 1) line noVertex) (nth i line noVertex))%R /\
    (0 < normalDivisor (nth (i - 1) line noVertex) (nth i line noVertex))%R.
Proof.
  assert (Hs : (0 < segmentLength (defaultSettings (num := R)))%R) by (cbn; lra).
  assert (Hm : (0 < minSpeedThreshold (defaultSettings (num := R)))%R) by (cbn; lra).
  assert (Hc : (1 <> 0)%R) by lra.
  repeat split; try assumption.
  all: apply (@trace_segments_not_degenerate defaultSettings eastField 1%R Hs Hm
                0%R 0%R Hc); assumption.
Defined.

Lemma trace_stops_in_zero_field_example :
  traceStep (defaultSettings (num := float)) zeroField 0%float 0%float 0%float
  = Stopped.
Proof.
  apply (proj1 (proj1 (trace_stops_before_dividing_by_zero zeroField)
                  0%float 0%float 0%float)).
  left. reflexivity.
Defined.

Lemma buildMesh_no_guard_example :
  exists mesh : StreamLinesMesh float,
    vertexData mesh =
      map fround (allSegmentsVertexData (Rand := halfRand) [degenerateLine] createRand) /\
    length (indexData mesh) = 6 * segmentCount [degenerateLine (num := float)].
Proof.
  eexists.
  apply (proj1 buildMesh_has_no_degeneracy_guard float _ halfRand defaultSettings
           quietWorld [degenerateLine]).
  vm_compute. reflexivity.
Defined.

Lemma smooth_uniform_grid_example :
  smooth (defaultSettings (num := R)) (data uniformGrid) 2 2 10%R
  = data uniformGrid.
Proof.
  apply (@smooth_uniform_grid defaultSettings 10%R) with (u := 1%R) (v := 0%R).
  - lra.
  - cbn. lra.
  - lia.
  - lia.
  - reflexivity.
  - intros x y Hx Hy.
    assert (Ex : x = 0%Z \/ x = 1%Z) by lia.
    assert (Ey : y = 0%Z \/ y = 1%Z) by lia.
    destruct Ex as [-> | ->], Ey as [-> | ->]; split; reflexivity.
Defined.


Lemma processors_agree_example :
  exists mesh,
    MainFlowProcessor_createStreamLinesMesh (Rand := halfRand)
      (defaultSettings (num := R)) quietWorld uniformGrid = Resolved mesh /\
    WorkerFlowProcessor_createStreamLinesMesh (Rand := halfRand)
      (defaultSettings (num := R)) true quietWorld quietWorld uniformGrid
      = Resolved mesh.
Proof.
  apply (proj2 (@processors_return_the_same_mesh R _ _ halfRand defaultSettings
                  uniformGrid quietWorld quietWorld quietWorld true));
    try (intros k; reflexivity).
  reflexivity.
Defined.

Lemma cancellation_example :
  exists mesh,
    run (createStreamLinesMesh (Rand := halfRand) (defaultSettings (num := R))
           abortedWorld uniformGrid) = Resolved mesh.
Proof.
  apply (proj1 (proj2 (@cancellation_only_at_checkpoints R _ _ halfRand
                         defaultSettings uniformGrid abortedWorld))).
  intros i _. cbn. apply Rltb_ge. lra.
Defined.

Lemma smooth_total_weight_example :
  (0 < 10)%R /\
  (minWeightThreshold (defaultSettings (num := R)) <= 1)%R /\
  forall totalWeight s0 s1,
    horizontalSums (data (uniformGrid (num := R))) 2 10%R
      (Math_round (num := R) (ofZ 3 * ofZ 10)%num) 0 0 = (totalWeight, s0, s1) ->
    (1 <= totalWeight)%R /\
    (totalWeight <? minWeightThreshold defaultSettings)%num = false /\
    weightedAverage defaultSettings totalWeight s0 = (s0 / totalWeight)%R /\
    weightedAverage defaultSettings totalWeight s1 = (s1 / totalWeight)%R.
Proof.
  assert (Hs : (0 < 10)%R) by lra.
  assert (Hm : (minWeightThreshold (defaultSettings (num := R)) <= 1)%R)
    by (cbn; lra).
  split; [exact Hs|]. split; [exact Hm|].
  apply (proj1 (@smooth_total_weight_at_least_one defaultSettings 10%R Hs Hm
                  (data uniformGrid) (data uniformGrid) 2 2 0 0
                  ltac:(lia) ltac:(lia))).
Defined.

(** ** The program on binary64 numbers: a grid that stalls the clock *)

Lemma segmentCount_constant {A : Type} (line : list A) (n : nat) :
  forall k, segmentCount (map (fun _ => line) (seq k n)) = n * (length line - 1).
Proof.
  induction n as [|n IH]; intros k; [reflexivity|].
  cbn [seq map]. rewrite segmentCount_cons, IH, Nat.mul_succ_l. lia.
Qed.

Lemma map_seq_first {A : Type} (g : nat -> A) (k n : nat) :
  0 < n -> map g (seq k n) = g k :: map g (seq (S k) (n - 1)).
Proof.
  intros Hn. destruct n as [|n]; [lia|].
  replace (S n - 1) with n by lia. reflexivity.
Qed.

Lemma allSegmentsVertexData_cons {num : Type} {NumOps : Number num}
    {Rand : RandomSource num} (line : list (StreamLineVertex num))
    (more : list (list (StreamLineVertex num))) (rand : RandState) :
  allSegmentsVertexData (line :: more) rand =
  flat_map
    (fun i => segmentVertexData (nth (i - 1) line noVertex) (nth i line noVertex)
                (time (nth (length line - 1) line noVertex))
                (fst (nextRand rand)))
    (seq 1 (length line - 1))
  ++ allSegmentsVertexData more (snd (nextRand rand)).
Proof.
  cbn [allSegmentsVertexData]. now destruct (nextRand rand).
Qed.

Lemma createStreamLinesMesh_unfold {num : Type} {NumOps : Number num}
    {MathOps : MathLib num} {Rand : RandomSource num} (settings : Settings num)
    (world : World num) (flowData : FlowData num) :
  createStreamLinesMesh settings world flowData =
  buildMesh settings world
    (getStreamLines settings (createFlowFieldFromData settings flowData)
       (columns flowData) (rows flowData) (cellSize flowData)).
Proof. reflexivity. Qed.

Lemma stallLines_unfold :
  getStreamLines (MathOps := MathLib_float) (Rand := halfRand) defaultSettings
    (createFlowFieldFromData (MathOps := MathLib_float) defaultSettings stallGrid)
    (columns stallGrid) (rows stallGrid) (cellSize stallGrid)
  = stallLines.
Proof.
  exact (eq_refl
           (getStreamLines (MathOps := MathLib_float) (Rand := halfRand)
              defaultSettings
              (createFlowFieldFromData (MathOps := MathLib_float)
                 defaultSettings stallGrid)
              (columns stallGrid) (rows stallGrid) (cellSize stallGrid))).
Qed.

Lemma stallLine_unfold :
  trace defaultSettings stallField (ofZ 36) (ofZ 1) (cellSize stallGrid)
  = stallLine.
Proof.
  exact (eq_refl
           (trace defaultSettings stallField (ofZ 36) (ofZ 1) (cellSize stallGrid))).
Qed.

Lemma defaultSettings_lines_pos :
  0 < linesPerVisualization (defaultSettings (num := float)).
Proof. apply Nat.ltb_lt. reflexivity. Qed.

Section Stall.
Local Open Scope float_scope.

(** With every draw 1/2 all the seeds on [stallGrid] are the point (36, 1). *)
Lemma stallLines_seeds (i : nat) :
  seedX (MathOps := MathLib_float) (Rand := halfRand) (columns stallGrid) i = 36%Z /\
  seedY (MathOps := MathLib_float) (Rand := halfRand) (rows stallGrid) i = 1%Z.
Proof. split; reflexivity. Qed.

(** The line traced from that seed: after one slow step the steps are
    too short to change the time. *)
Lemma stallLine_value :
  stallLine =
  [ {| position := (0x1.2p+5, 0x1p+0); time := 0x0p+0 |};
    {| position := (0x1.7p+5, 0x1p+0); time := 0x1.1c1745eb47ef1p+13 |};
    {| position := (0x1.cp+5, 0x1p+0); time := 0x1.1c1745eb47ef1p+13 |};
    {| position := (0x1.08p+6, 0x1p+0); time := 0x1.1c1745eb47ef1p+13 |};
    {| position := (0x1.3p+6, 0x1p+0); time := 0x1.1c1745eb47ef1p+13 |} ].
Proof. vm_compute. reflexivity. Qed.

Lemma stallLines_all :
  stallLines =
  map (fun _ => stallLine)
      (seq 0 (linesPerVisualization (defaultSettings (num := float)))).
Proof.
  unfold stallLines.
  destruct (getStreamLines_spec (MathOps := MathLib_float) (Rand := halfRand)
              defaultSettings stallField (columns stallGrid) (rows stallGrid)
              (cellSize stallGrid)) as [-> _].
  apply map_ext. intros i.
  destruct (stallLines_seeds i) as [-> ->]. now rewrite stallLine_unfold.
Qed.

Lemma stallLines_cons :
  stallLines =
  stallLine ::
  map (fun _ => stallLine)
      (seq 1 (linesPerVisualization (defaultSettings (num := float)) - 1)).
Proof.
  rewrite stallLines_all.
  exact (map_seq_first (fun _ => stallLine) 0 defaultSettings_lines_pos).
Qed.

Lemma stallLines_first : nth 0 stallLines [] = stallLine.
Proof. rewrite stallLines_cons. reflexivity. Qed.

Lemma stallLines_segmentCount : segmentCount stallLines = (4000 * 4)%nat.
Proof.
  rewrite stallLines_all, segmentCount_constant, stallLine_value. reflexivity.
Qed.

Lemma stallLines_vertexData :
  existsb PrimFloat.is_infinity
    (map fround (allSegmentsVertexData (Rand := halfRand) stallLines createRand))
  = true /\
  forallb is_finite
    (map fround (allSegmentsVertexData (Rand := halfRand) stallLines createRand))
  = false.
Proof.
  rewrite stallLines_cons.
  rewrite allSegmentsVertexData_cons, map_app, existsb_app, forallb_app.
  rewrite stallLine_value.
  split.
  - apply orb_true_iff. left. vm_compute. reflexivity.
  - apply andb_false_iff. left. vm_compute. reflexivity.
Qed.

End Stall.

(** On binary64 numbers [createStreamLinesMesh] returns, for the finite
    grid [stallGrid], a mesh that holds every consecutive pair of every
    line (4 pairs for each of the 4000 lines, none skipped) and, for the
    pairs with equal times, an infinite speed. *)
Lemma createStreamLinesMesh_stores_infinity :
  forallb is_finite (data stallGrid) = true /\
  exists mesh : StreamLinesMesh float,
    run (createStreamLinesMesh (MathOps := MathLib_float) (Rand := halfRand)
           defaultSettings quietWorld stallGrid) = Resolved mesh /\
    length (indexData mesh) = 6 * (4000 * 4) /\
    existsb PrimFloat.is_infinity (vertexData mesh) = true /\
    forallb is_finite (vertexData mesh) = false.
Proof.
  split; [vm_compute; reflexivity|].
  destruct (@createStreamLinesMesh_total float _ MathLib_float halfRand
              defaultSettings stallGrid quietWorld) as [mesh Hmesh];
    [intros k; reflexivity|].
  exists mesh. split; [exact Hmesh|].
  pose proof Hmesh as Hrun.
  rewrite createStreamLinesMesh_unfold, stallLines_unfold in Hrun.
  apply buildMesh_vertexData in Hrun. destruct Hrun as [Hv Hi].
  rewrite Hv, Hi, stallLines_segmentCount.
  split; [reflexivity|]. exact stallLines_vertexData.
Qed.

Section StallClaims.
Local Open Scope float_scope.

(** On binary64 numbers the times of a line returned by [trace] need not
    increase.  The grid [stallGrid] holds finite numbers only and the
    step length is positive; the first line of its batch has five
    vertices with finite times, and the times of its vertices 1 and 2
    are equal: the step between them, through a fast cell, takes less
    than the time elapsed can resolve. *)
Lemma trace_times_repeat_on_binary64 :
  forallb is_finite (data stallGrid) = true /\
  (0 <? segmentLength (defaultSettings (num := float))) = true /\
  nth 0 stallLines [] = stallLine /\
  length stallLine = 5%nat /\
  forallb is_finite (map (@time float) stallLine) = true /\
  time (nth 1 stallLine noVertex) = time (nth 2 stallLine noVertex) /\
  (time (nth 1 stallLine noVertex) <? time (nth 2 stallLine noVertex)) = false.
Proof.
  split; [vm_compute; reflexivity|].
  split; [vm_compute; reflexivity|].
  split; [exact stallLines_first|].
  rewrite stallLine_value.
  repeat split; vm_compute; reflexivity.
Qed.

(** On binary64 numbers a line returned by [trace] can hold a degenerate
    pair.  With the positive step length, threshold and cell size of the
    program and of [stallGrid], the vertices 1 and 2 of the first line
    of the batch have the same time: the divisor [t1 - t0] of the mesh
    builder is 0 and the speed [1 / (t1 - t0)] is infinite. *)
Lemma trace_segment_degenerate_on_binary64 :
  (0 <? segmentLength (defaultSettings (num := float))) = true /\
  (0 <? minSpeedThreshold (defaultSettings (num := float))) = true /\
  (0 <? cellSize stallGrid) = true /\
  nth 0 stallLines [] = stallLine /\
  (1 <= 2 < length stallLine)%nat /\
  speedDivisor (nth (2 - 1) stallLine noVertex) (nth 2 stallLine noVertex) = 0 /\
  (ofZ 1 / speedDivisor (nth (2 - 1) stallLine noVertex) (nth 2 stallLine noVertex))%num
    = infinity.
Proof.
  split; [vm_compute; reflexivity|].
  split; [vm_compute; reflexivity|].
  split; [vm_compute; reflexivity|].
  split; [exact stallLines_first|].
  rewrite stallLine_value.
  split; [cbn [length]; lia|].
  split; vm_compute; reflexivity.
Qed.


End StallClaims.


(** * Further properties of the code *)

(** * Further properties *)

(** ** smooth: shape and degenerate grids *)

Lemma forZ_preserves {St : Type} (P : St -> Prop) (lo hi : Z)
    (body : Z -> St -> St) (s : St) :
  (forall i s, P s -> P (body i s)) -> P s -> P (forZ lo hi body s).
Proof.
  intros Hbody. unfold forZ.
  generalize (seq 0 (Z.to_nat (hi - lo))). intros l. revert s.
  induction l as [|k l IH]; intros s Hs; [exact Hs|].
  cbn [fold_left]. apply IH. now apply Hbody.
Qed.

Lemma forZ_none {St : Type} (lo hi : Z) (body : Z -> St -> St) (s : St) :
  (hi <= lo)%Z -> forZ lo hi body s = s.
Proof.
  intros H. unfold forZ. replace (Z.to_nat (hi - lo)) with 0 by lia. reflexivity.
Qed.

Section SmoothShape.
Context {num : Type} {NumOps : Number num} {MathOps : MathLib num}.
Variable settings : Settings num.




(** X2: on a grid without cells (no column or no row) no cell is stored:
    [smooth] returns the array of zeros of the length of its input,
    whatever the input holds. *)
Theorem smooth_without_cells (data : list num) (columns rows : Z) (sigma : num) :
  (columns <= 0)%Z \/ (rows <= 0)%Z ->
  smooth settings data columns rows sigma = newFloat32Array (length data).
Proof.
  intros Hdim. unfold smooth, verticalPass. cbv zeta.
  destruct Hdim as [Hc|Hr].
  - now apply forZ_none.
  - apply (forZ_preserves
             (fun a : list num => a = newFloat32Array (length data)));
      [|reflexivity].
    intros x a ->. now apply forZ_none.
Qed.

End SmoothShape.

Lemma smooth_without_cells_example :
  ((0 <= 0)%Z \/ (2 <= 0)%Z) /\
  smooth (defaultSettings (num := R)) [1%R; 2%R] 0 2 1%R = newFloat32Array 2.
Proof.
  split; [left; lia|].
  apply (@smooth_without_cells R _ _ defaultSettings [1%R; 2%R] 0 2).
  left. lia.
Defined.

(** ** The mesh builder: empty lines and the size of the mesh *)

Section MeshEdges.
Context {num : Type} {NumOps : Number num} {Rand : RandomSource num}.
Variable settings : Settings num.

Lemma meshLoop_empty_line (world : World num)
    (streamLines : list (list (StreamLineVertex num))) :
  neverAborted world ->
  Exists (fun line => line = []) streamLines ->
  forall (rand : RandState) (restTime : num) (acc : @MeshAcc num) (s : Sched),
  meshLoop settings world streamLines rand restTime acc s = Rejected TypeError.
Proof.
  intros Hquiet. induction streamLines as [|line more IH];
    intros Hex rand restTime acc s.
  - inversion Hex.
  - rewrite meshLoop_cons. cbv zeta. rewrite Hquiet.
    destruct (lastVertexOf line) as [lv|] eqn:Hlast.
    + assert (Hmore : Exists (fun line => line = []) more).
      { inversion Hex as [? ? Hhead|? ? Htail]; subst; [discriminate Hlast|exact Htail]. }
      destruct (_ <? _)%num; now apply IH.
    + destruct (_ <? _)%num; reflexivity.
Qed.

(** X3: when a line of its input is empty the mesh builder never returns
    a mesh: reading the time of the last vertex fails.  If the call is
    not cancelled first, it rejects with that TypeError. *)
Theorem buildMesh_empty_line (world : World num)
    (streamLines : list (list (StreamLineVertex num))) :
  Exists (fun line => line = []) streamLines ->
  (forall mesh, run (buildMesh settings world streamLines) <> Resolved mesh) /\
  (neverAborted world ->
   run (buildMesh settings world streamLines) = Rejected TypeError).
Proof.
  intros Hex. split.
  - intros mesh Hrun. rewrite buildMesh_run in Hrun.
    destruct (meshLoop _ _ _ _ _ _ _) as [[acc s']|e] eqn:Hloop; [|discriminate].
    apply meshLoop_resolved in Hloop. destruct Hloop as (Hne & _).
    apply Exists_exists in Hex. destruct Hex as (line & Hin & ->).
    rewrite Forall_forall in Hne. specialize (Hne [] Hin). cbn in Hne. lia.
  - intros Hquiet. rewrite buildMesh_run.
    now rewrite (meshLoop_empty_line Hquiet Hex).
Qed.

Lemma segmentCount_bound {A : Type} (m : nat) (streamLines : list (list A)) :
  Forall (fun line => length line <= m + 1) streamLines ->
  segmentCount streamLines <= length streamLines * m.
Proof.
  induction 1 as [|line more Hline _ IH]; [cbn; lia|].
  rewrite segmentCount_cons. cbn [length]. lia.
Qed.

End MeshEdges.

Lemma buildMesh_empty_line_example :
  Exists (fun line => line = []) [@nil (StreamLineVertex float)] /\
  run (buildMesh (num := float) (Rand := halfRand) defaultSettings quietWorld [[]])
  = Rejected TypeError.
Proof.
  assert (Hex : Exists (fun line => line = []) [@nil (StreamLineVertex float)])
    by (constructor; reflexivity).
  split; [exact Hex|].
  apply (proj2 (@buildMesh_empty_line float _ halfRand defaultSettings quietWorld
                  [[]] Hex)).
  intros k. reflexivity.
Defined.

Section PipelineSize.
Context {num : Type} {NumOps : Number num} {MathOps : MathLib num}
        {Rand : RandomSource num}.
Variable settings : Settings num.
Variable flowData : FlowData num.

Lemma streamLines_segmentCount :
  segmentCount
    (getStreamLines settings (createFlowFieldFromData settings flowData)
       (columns flowData) (rows flowData) (cellSize flowData))
  <= linesPerVisualization settings * verticesPerLine settings.
Proof.
  rewrite <- (streamLines_length settings flowData).
  apply segmentCount_bound.
  destruct (getStreamLines_spec settings
              (createFlowFieldFromData settings flowData)
              (columns flowData) (rows flowData) (cellSize flowData)) as [-> _].
  apply Forall_forall. intros line Hin. apply in_map_iff in Hin.
  destruct Hin as (i & <- & _). apply trace_length.
Qed.

(** X4: a mesh returned by [createStreamLinesMesh] has [n] segments with
    [n] at most [linesPerVisualization * verticesPerLine]: [36 n]
    numbers and [6 n] indices; when four times that bound fits in 32
    bits (it is 1,600,000 for the settings of the program) the indices
    stored in the Uint32Array are the numbers pushed, none wrapped. *)
Theorem createStreamLinesMesh_size (world : World num)
    (mesh : StreamLinesMesh num) :
  (4 * Z.of_nat (linesPerVisualization settings * verticesPerLine settings)
     <= 2 ^ 32)%Z ->
  run (createStreamLinesMesh settings world flowData) = Resolved mesh ->
  exists n,
    n <= linesPerVisualization settings * verticesPerLine settings /\
    length (vertexData mesh) = 36 * n /\
    indexData mesh = quadIndices 0 n.
Proof.
  intros Hfit Hrun. unfold createStreamLinesMesh in Hrun. cbv zeta in Hrun.
  pose proof streamLines_segmentCount as Hbound.
  set (lines := getStreamLines settings _ _ _ _) in *.
  exists (segmentCount lines). split; [exact Hbound|].
  rewrite buildMesh_run in Hrun.
  destruct (meshLoop _ _ _ _ _ _ _) as [[acc s']|e] eqn:Hloop; [|discriminate].
  injection Hrun as <-.
  apply meshLoop_resolved in Hloop. destruct Hloop as (_ & _ & Hv & Hi).
  cbn [vertexCount vertexDataAcc indexDataAcc length app] in Hv, Hi.
  split.
  - cbn. now rewrite length_map, Hv.
  - cbn. rewrite Hi. rewrite <- (map_id (quadIndices 0 (segmentCount lines))) at 2.
    apply map_ext_in. intros i Hin.
    pose proof (quadIndices_bounds 0 (segmentCount lines)) as Hb.
    rewrite Forall_forall in Hb. specialize (Hb i Hin).
    unfold toUint32. apply Z.mod_small. lia.
Qed.

End PipelineSize.

Lemma createStreamLinesMesh_size_example :
  (4 * Z.of_nat (linesPerVisualization (defaultSettings (num := R)) *
                 verticesPerLine (defaultSettings (num := R))) <= 2 ^ 32)%Z /\
  exists mesh n,
    run (createStreamLinesMesh (Rand := halfRand) (defaultSettings (num := R))
           quietWorld uniformGrid) = Resolved mesh /\
    n <= linesPerVisualization (defaultSettings (num := R)) *
         verticesPerLine (defaultSettings (num := R)) /\
    length (vertexData mesh) = 36 * n /\
    indexData mesh = quadIndices 0 n.
Proof.
  assert (Hfit : (4 * Z.of_nat (linesPerVisualization (defaultSettings (num := R)) *
                     verticesPerLine (defaultSettings (num := R))) <= 2 ^ 32)%Z).
  { cbn [linesPerVisualization verticesPerLine defaultSettings]. lia. }
  split; [exact Hfit|].
  destruct (@createStreamLinesMesh_total R _ _ halfRand defaultSettings uniformGrid
              quietWorld) as [mesh Hmesh]; [intros k; reflexivity|].
  destruct (@createStreamLinesMesh_size R _ _ halfRand defaultSettings uniformGrid
              quietWorld mesh Hfit Hmesh) as (n & Hn).
  exists mesh, n. split; [exact Hmesh|exact Hn].
Defined.

(** ** smooth and the field in exact arithmetic *)

Section SmoothRange.
Variable settings : Settings R.
Variable sigma : R.
Hypothesis sigma_pos : (0 < sigma)%R.
Hypothesis minWeight_le_1 : (minWeightThreshold settings <= 1)%R.

Local Open Scope R_scope.

(** The loop over [d] on samples that lie between [lo] and [hi]: the
    sums lie between [lo] and [hi] times the total weight. *)
Lemma kernel_sums_bounded (halfRadius : Z) (out : Z -> bool) (r0 r1 : Z -> R)
    (lo hi totalWeight s0 s1 : R) :
  (0 <= halfRadius)%Z -> out 0%Z = false ->
  (forall d, out d = false -> lo <= r0 d <= hi) ->
  (forall d, out d = false -> lo <= r1 d <= hi) ->
  forZ (- halfRadius) (halfRadius + 1)
    (fun d '(totalWeight, s0, s1) =>
       if out d then (totalWeight, s0, s1)
       else
         let weight := kernelWeight sigma d in
         (totalWeight + weight, s0 + weight * r0 d, s1 + weight * r1 d)%num)
    (0, 0, 0) = (totalWeight, s0, s1) ->
  1 <= totalWeight /\
  lo * totalWeight <= s0 <= hi * totalWeight /\
  lo * totalWeight <= s1 <= hi * totalWeight.
Proof.
  intros Hh Hout Hr0 Hr1 Hloop.
  set (Inv := fun (i : Z) (st : R * R * R) =>
     let '(tw, a0, a1) := st in
     0 <= tw /\ ((0 < i)%Z -> 1 <= tw) /\
     lo * tw <= a0 <= hi * tw /\ lo * tw <= a1 <= hi * tw).
  assert (H : Inv (halfRadius + 1)%Z (totalWeight, s0, s1)).
  { rewrite <- Hloop. apply forZ_invariant.
    - lia.
    - unfold Inv. repeat split; intros; try lra; lia.
    - intros d [[tw a0] a1] Hd (Htw & Hone & Ha0 & Ha1). unfold Inv.
      destruct (out d) eqn:Ed.
      + repeat split; try tauto.
        intros Hpos. apply Hone.
        destruct (Z.eq_dec d 0) as [->|Hne]; [congruence|lia].
      + cbn [nadd nmul Number_R]. pose proof (kernelWeight_pos sigma d) as Hw.
        pose proof (Hr0 d Ed) as B0. pose proof (Hr1 d Ed) as B1.
        repeat split; try nra.
        intros Hpos. destruct (Z.eq_dec d 0) as [->|Hne].
        * rewrite kernelWeight_0. lra.
        * assert (1 <= tw) by (apply Hone; lia). lra. }
  unfold Inv in H. destruct H as (_ & Hone & Hs0 & Hs1).
  split; [apply Hone; lia|]. split; assumption.
Qed.

Lemma average_in_range (lo hi totalWeight s : R) :
  1 <= totalWeight -> lo * totalWeight <= s <= hi * totalWeight ->
  lo <= weightedAverage settings totalWeight s <= hi.
Proof.
  intros Hone Hs. rewrite weightedAverage_exact by assumption.
  assert (Hinv : 0 < / totalWeight) by (apply Rinv_0_lt_compat; lra).
  assert (Hmul : totalWeight * / totalWeight = 1) by (apply Rinv_r; lra).
  unfold Rdiv. split.
  - replace lo with (lo * totalWeight * / totalWeight)
      by (rewrite Rmult_assoc, Hmul; ring).
    apply Rmult_le_compat_r; lra.
  - replace hi with (hi * totalWeight * / totalWeight)
      by (rewrite Rmult_assoc, Hmul; ring).
    apply Rmult_le_compat_r; lra.
Qed.

Section OnGrid.
Variables columns rows : Z.
Variables lo hi : R.
Hypothesis columns_nonneg : (0 <= columns)%Z.
Hypothesis rows_nonneg : (0 <= rows)%Z.

Lemma horizontalPass_in_range (data : list R) :
  Z.of_nat (length data) = (2 * columns * rows)%Z ->
  (forall i, (0 <= i < 2 * columns * rows)%Z -> lo <= getF32 data i <= hi) ->
  forall i, (0 <= i < 2 * columns * rows)%Z ->
    lo <= getF32 (horizontalPass settings data columns rows sigma
                    (Math_round (ofZ 3 * sigma)%num)) i <= hi.
Proof.
  intros Hlen Hdata i Hi.
  set (halfRadius := Math_round (ofZ 3 * sigma)%num).
  destruct (@horizontalPass_cells settings sigma data columns rows halfRadius
              columns_nonneg rows_nonneg Hlen) as [_ Hcells].
  destruct (@cell_index_surjective columns rows i columns_nonneg Hi)
    as (x & y & c & Hx & Hy & Hch & ->).
  specialize (Hcells x y Hx Hy).
  destruct (horizontalSums data columns sigma halfRadius x y)
    as [[tw s0] s1] eqn:Hsums.
  unfold horizontalSums in Hsums.
  destruct (@kernel_sums_bounded halfRadius
              (fun d => ((x + d <? 0) || (x + d >=? columns))%Z)
              (fun d => getF32 data (2 * (y * columns + (x + d)) + 0))
              (fun d => getF32 data (2 * (y * columns + (x + d)) + 1))
              lo hi tw s0 s1 (halfRadius_nonneg sigma_pos))
    as (Hone & Hs0 & Hs1).
  - apply inside_grid. lia.
  - intros d Hd. apply inside_grid in Hd. apply Hdata.
    apply cell_index_in_range; [exact Hd|exact Hy|now left].
  - intros d Hd. apply inside_grid in Hd. apply Hdata.
    apply cell_index_in_range; [exact Hd|exact Hy|now right].
  - exact Hsums.
  - destruct Hcells as [H0 H1]. cbn [fround Number_R] in H0, H1.
    destruct Hch as [-> | ->]; [rewrite H0|rewrite H1];
      now apply average_in_range.
Qed.

Lemma verticalPass_in_range (data horizontal : list R) :
  Z.of_nat (length data) = (2 * columns * rows)%Z ->
  (forall i, (0 <= i < 2 * columns * rows)%Z -> lo <= getF32 horizontal i <= hi) ->
  forall i, (0 <= i < 2 * columns * rows)%Z ->
    lo <= getF32 (verticalPass settings data horizontal columns rows sigma
                    (Math_round (ofZ 3 * sigma)%num)) i <= hi.
Proof.
  intros Hlen Hdata i Hi.
  set (halfRadius := Math_round (ofZ 3 * sigma)%num).
  destruct (@verticalPass_cells settings sigma data horizontal columns rows
              halfRadius columns_nonneg rows_nonneg Hlen) as [_ Hcells].
  destruct (@cell_index_surjective columns rows i columns_nonneg Hi)
    as (x & y & c & Hx & Hy & Hch & ->).
  specialize (Hcells x y Hx Hy).
  destruct (verticalSums horizontal columns rows sigma halfRadius x y)
    as [[tw s0] s1] eqn:Hsums.
  unfold verticalSums in Hsums.
  destruct (@kernel_sums_bounded halfRadius
              (fun d => ((y + d <? 0) || (y + d >=? rows))%Z)
              (fun d => getF32 horizontal (2 * ((y + d) * columns + x) + 0))
              (fun d => getF32 horizontal (2 * ((y + d) * columns + x) + 1))
              lo hi tw s0 s1 (halfRadius_nonneg sigma_pos))
    as (Hone & Hs0 & Hs1).
  - apply inside_grid. lia.
  - intros d Hd. apply inside_grid in Hd. apply Hdata.
    apply cell_index_in_range; [exact Hx|exact Hd|now left].
  - intros d Hd. apply inside_grid in Hd. apply Hdata.
    apply cell_index_in_range; [exact Hx|exact Hd|now right].
  - exact Hsums.
  - destruct Hcells as [H0 H1]. cbn [fround Number_R] in H0, H1.
    destruct Hch as [-> | ->]; [rewrite H0|rewrite H1];
      now apply average_in_range.
Qed.

(** X5: in exact arithmetic, on a grid of the declared shape whose
    numbers all lie between [lo] and [hi], every number of the result
    of [smooth] lies between [lo] and [hi]: smoothing never leaves the
    range of its input (positive sigma, threshold at most 1). *)
Theorem smooth_stays_in_range (data : list R) :
  Z.of_nat (length data) = (2 * columns * rows)%Z ->
  (forall i, (0 <= i < 2 * columns * rows)%Z -> lo <= getF32 data i <= hi) ->
  forall i, (0 <= i < 2 * columns * rows)%Z ->
    lo <= getF32 (smooth settings data columns rows sigma) i <= hi.
Proof.
  intros Hlen Hdata. unfold smooth. cbv zeta.
  apply verticalPass_in_range; [exact Hlen|].
  now apply horizontalPass_in_range.
Qed.

End OnGrid.
End SmoothRange.

Lemma smooth_stays_in_range_example :
  (0 < 10)%R /\
  (minWeightThreshold (defaultSettings (num := R)) <= 1)%R /\
  forall i, (0 <= i < 2 * 2 * 2)%Z ->
    (0 <= getF32 (smooth (defaultSettings (num := R)) (data uniformGrid) 2 2 10%R) i
       <= 1)%R.
Proof.
  assert (Hs : (0 < 10)%R) by lra.
  assert (Hm : (minWeightThreshold (defaultSettings (num := R)) <= 1)%R)
    by (cbn; lra).
  split; [exact Hs|]. split; [exact Hm|].
  apply (@smooth_stays_in_range defaultSettings 10%R Hs Hm 2 2 0%R 1%R
           ltac:(lia) ltac:(lia) (data uniformGrid) eq_refl).
  intros i Hi.
  assert (Hcases : (i = 0 \/ i = 1 \/ i = 2 \/ i = 3 \/ i = 4 \/ i = 5 \/ i = 6 \/ i = 7)%Z)
    by lia.
  destruct Hcases as [-> | [-> | [-> | [-> | [-> | [-> | [-> | ->]]]]]]];
    match goal with
    | |- (_ <= ?g <= _)%R =>
        first [ replace g with 1%R by reflexivity
              | replace g with 0%R by reflexivity ]
    end; lra.
Defined.

Section NarrowKernel.
Variable settings : Settings R.
Variable sigma : R.
Hypothesis sigma_pos : (0 < sigma)%R.
Hypothesis sigma_small : (sigma < / 6)%R.
Hypothesis minWeight_le_1 : (minWeightThreshold settings <= 1)%R.

Local Open Scope R_scope.

Lemma halfRadius_zero : Math_round (ofZ 3 * sigma)%num = 0%Z.
Proof. cbn. apply Zfloor_eq. lra. Qed.

Lemma forZ_once {St : Type} (body : Z -> St -> St) (s : St) :
  forZ (- 0) (0 + 1) body s = body 0%Z s.
Proof. reflexivity. Qed.

(** With half radius 0 the sums of a cell are the cell itself with
    weight 1, so each pass stores the array it reads. *)
Lemma narrow_average (r : R) :
  weightedAverage settings (0 + kernelWeight sigma 0)
                  (0 + kernelWeight sigma 0 * r) = r.
Proof.
  rewrite kernelWeight_0. rewrite weightedAverage_exact by (assumption || lra).
  field.
Qed.

Lemma horizontalPass_narrow (data : list R) (columns rows : Z) :
  (0 <= columns)%Z -> (0 <= rows)%Z ->
  Z.of_nat (length data) = (2 * columns * rows)%Z ->
  horizontalPass settings data columns rows sigma 0 = data.
Proof.
  intros Hc Hr Hlen.
  destruct (@horizontalPass_cells settings sigma data columns rows 0 Hc Hr Hlen)
    as [Hl Hcells].
  apply getF32_ext; [exact Hl|].
  intros i Hi. rewrite Hl, Hlen in Hi.
  destruct (@cell_index_surjective columns rows i Hc Hi)
    as (x & y & c & Hx & Hy & Hch & ->).
  specialize (Hcells x y Hx Hy).
  unfold horizontalSums in Hcells. rewrite forZ_once in Hcells.
  replace ((x + 0 <? 0) || (x + 0 >=? columns))%Z with false in Hcells
    by (symmetry; apply inside_grid; lia).
  cbv zeta in Hcells. unfold cellHolds in Hcells.
  cbn [fround Number_R nadd nmul ofZ] in Hcells.
  rewrite !narrow_average in Hcells.
  destruct Hcells as [H0 H1].
  destruct Hch as [-> | ->]; rewrite ?Z.add_0_r in *; assumption.
Qed.

Lemma verticalPass_narrow (data horizontal : list R) (columns rows : Z) :
  (0 <= columns)%Z -> (0 <= rows)%Z ->
  Z.of_nat (length data) = (2 * columns * rows)%Z ->
  length horizontal = length data ->
  verticalPass settings data horizontal columns rows sigma 0 = horizontal.
Proof.
  intros Hc Hr Hlen Hh.
  destruct (@verticalPass_cells settings sigma data horizontal columns rows 0
              Hc Hr Hlen) as [Hl Hcells].
  apply getF32_ext; [congruence|].
  intros i Hi. rewrite Hl, Hlen in Hi.
  destruct (@cell_index_surjective columns rows i Hc Hi)
    as (x & y & c & Hx & Hy & Hch & ->).
  specialize (Hcells x y Hx Hy).
  unfold verticalSums in Hcells. rewrite forZ_once in Hcells.
  replace ((y + 0 <? 0) || (y + 0 >=? rows))%Z with false in Hcells
    by (symmetry; apply inside_grid; lia).
  cbv zeta in Hcells. unfold cellHolds in Hcells.
  cbn [fround Number_R nadd nmul ofZ] in Hcells.
  rewrite !narrow_average in Hcells.
  destruct Hcells as [H0 H1].
  destruct Hch as [-> | ->]; rewrite ?Z.add_0_r in *; assumption.
Qed.

(** X6: in exact arithmetic, for a positive sigma below 1/6 the half
    radius [Math.round(3 * sigma)] is 0, the kernel holds the cell
    alone, and [smooth] returns every grid of the declared shape
    unchanged (threshold at most 1). *)
Theorem smooth_narrow_kernel (data : list R) (columns rows : Z) :
  (0 <= columns)%Z -> (0 <= rows)%Z ->
  Z.of_nat (length data) = (2 * columns * rows)%Z ->
  smooth settings data columns rows sigma = data.
Proof.
  intros Hc Hr Hlen. unfold smooth. cbv zeta. rewrite halfRadius_zero.
  rewrite (@horizontalPass_narrow data columns rows Hc Hr Hlen).
  now apply verticalPass_narrow.
Qed.

End NarrowKernel.

Lemma smooth_narrow_kernel_example :
  (0 < / 10)%R /\ (/ 10 < / 6)%R /\
  (minWeightThreshold (defaultSettings (num := R)) <= 1)%R /\
  smooth (defaultSettings (num := R)) [3; 4; 5; 6]%R 2 1 (/ 10)%R = [3; 4; 5; 6]%R.
Proof.
  assert (Hs : (0 < / 10)%R) by lra.
  assert (Hl : (/ 10 < / 6)%R) by lra.
  assert (Hm : (minWeightThreshold (defaultSettings (num := R)) <= 1)%R)
    by (cbn; lra).
  repeat split; try assumption.
  apply (@smooth_narrow_kernel defaultSettings (/ 10)%R Hs Hl Hm [3; 4; 5; 6]%R 2 1);
    [lia|lia|reflexivity].
Defined.

(** ** The field of a grid *)

Section FieldSampling.
Variable settings : Settings R.
Variable flowData : FlowData R.

Local Open Scope R_scope.

Lemma Math_round_negative (x : R) : x < - / 2 -> (Math_round x < 0)%Z.
Proof.
  intros Hx. cbn. pose proof (Zfloor_bound (x + / 2)) as [Hlo _].
  apply lt_IZR. lra.
Qed.

Lemma Math_round_beyond (x : R) (n : Z) :
  IZR n - / 2 <= x -> (n <= Math_round x)%Z.
Proof. intros Hx. cbn. apply Zfloor_lub. lra. Qed.

(** X7: in exact arithmetic the field of a grid is the nearest-cell
    field: its value at [(x, y)] is its value at the integer point
    [(Math.round x, Math.round y)], so it is constant on each square
    [X - 1/2 <= x < X + 1/2], [Y - 1/2 <= y < Y + 1/2]; and it is
    [(0, 0)] to the left of [-1/2], from [columns - 1/2] on, and
    likewise in [y]. *)
Theorem field_is_nearest_cell (x y : R) :
  createFlowFieldFromData settings flowData x y =
    createFlowFieldFromData settings flowData
      (IZR (Math_round x)) (IZR (Math_round y)) /\
  (x < - / 2 \/ IZR (columns flowData) - / 2 <= x \/
   y < - / 2 \/ IZR (rows flowData) - / 2 <= y ->
   createFlowFieldFromData settings flowData x y = (0, 0)).
Proof.
  split.
  - unfold createFlowFieldFromData. cbv zeta.
    now rewrite !Math_round_IZR.
  - intros Hout. unfold createFlowFieldFromData. cbv zeta.
    destruct Hout as [Hx | [Hx | [Hy | Hy]]].
    + apply Math_round_negative in Hx. apply Z.ltb_lt in Hx.
      now rewrite Hx.
    + apply Math_round_beyond in Hx. apply Z.geb_le in Hx.
      rewrite Hx, orb_true_r. reflexivity.
    + apply Math_round_negative in Hy. apply Z.ltb_lt in Hy.
      rewrite Hy. cbn [orb]. now destruct (_ || _).
    + apply Math_round_beyond in Hy. apply Z.geb_le in Hy.
      rewrite Hy, orb_true_r. now destruct (_ || _).
Qed.

End FieldSampling.

Lemma field_is_nearest_cell_example :
  (IZR (columns (uniformGrid (num := R))) - / 2 <= 2)%R /\
  createFlowFieldFromData defaultSettings (uniformGrid (num := R)) 2%R 0%R
  = (0%R, 0%R).
Proof.
  assert (H : (IZR (columns (uniformGrid (num := R))) - / 2 <= 2)%R)
    by (cbn; lra).
  split; [exact H|].
  apply (proj2 (@field_is_nearest_cell defaultSettings uniformGrid 2%R 0%R)).
  right. left. exact H.
Defined.

(** ** trace in exact arithmetic: steps, times and speeds *)

Section TraceGeometry.
Variable settings : Settings R.
Variable f : Field R.
Variable cellSize : R.
Hypothesis segmentLength_pos : (0 < segmentLength settings)%R.
Hypothesis minSpeed_pos : (0 < minSpeedThreshold settings)%R.

Local Open Scope R_scope.

Lemma traceStep_step_length (x y t v x' y' t' : R) :
  traceStep settings f x y t = Advanced v x' y' t' ->
  normalDivisor (vertexAt cellSize x y t) (vertexAt cellSize x' y' t')
  = segmentLength settings * Rabs cellSize.
Proof.
  intros H.
  apply (traceStep_advanced settings f minSpeed_pos) in H.
  destruct H as (_ & _ & Hlen).
  unfold normalDivisor. cbn.
  replace ((x' * cellSize - x * cellSize) * (x' * cellSize - x * cellSize) +
           (y' * cellSize - y * cellSize) * (y' * cellSize - y * cellSize))
    with (cellSize * cellSize * ((x' - x) * (x' - x) + (y' - y) * (y' - y)))
    by ring.
  rewrite Hlen.
  replace (cellSize * cellSize * (segmentLength settings * segmentLength settings))
    with ((segmentLength settings * Rabs cellSize) *
          (segmentLength settings * Rabs cellSize)).
  - apply sqrt_square. pose proof (Rabs_pos cellSize). nra.
  - unfold Rabs. destruct (Rcase_abs cellSize); ring.
Qed.

(** X8: in exact arithmetic every segment of a line returned by [trace]
    has the same length, [segmentLength] times the absolute value of
    [cellSize]: this is the [l] that the mesh builder computes for it. *)
Theorem trace_segments_have_step_length (x0 y0 : R) :
  let line := trace settings f x0 y0 cellSize in
  forall i, (1 <= i < length line)%nat ->
    normalDivisor (nth (i - 1) line noVertex) (nth i line noVertex)
    = segmentLength settings * Rabs cellSize.
Proof.
  intros line i Hi.
  replace i with (S (i - 1)) at 2 by lia.
  apply (LocallySorted_nth
           (P := fun v0 v1 : StreamLineVertex R =>
                   normalDivisor v0 v1 = segmentLength settings * Rabs cellSize)).
  - apply trace_chain. intros. eapply traceStep_step_length. eassumption.
  - lia.
Qed.

Lemma traceStep_time_step (x y t v x' y' t' : R) :
  traceStep settings f x y t = Advanced v x' y' t' ->
  0 < speedDivisor (vertexAt cellSize x y t) (vertexAt cellSize x' y' t')
    <= segmentLength settings / minSpeedThreshold settings.
Proof.
  intros H.
  apply (traceStep_advanced settings f minSpeed_pos) in H.
  destruct H as (Hv & -> & _). unfold speedDivisor. cbn.
  replace (t + segmentLength settings / v - t) with (segmentLength settings / v)
    by ring.
  split.
  - apply Rdiv_lt_0_compat; lra.
  - unfold Rdiv. apply Rmult_le_compat_l; [lra|].
    apply Rinv_le_contravar; lra.
Qed.

Lemma chain_accumulates (c : R) (l : list (StreamLineVertex R)) :
  LocallySorted (fun v0 v1 => 0 < speedDivisor v0 v1 <= c) l ->
  forall i, (i < length l)%nat ->
    time (nth 0 l noVertex) <= time (nth i l noVertex)
      <= time (nth 0 l noVertex) + INR i * c.
Proof.
  intros Hl. induction i as [|i IH]; intros Hi.
  - cbn [INR]. lra.
  - specialize (IH ltac:(lia)).
    pose proof (@LocallySorted_nth _ _ noVertex l Hl i Hi) as Hstep.
    cbv beta in Hstep.
    unfold speedDivisor in Hstep. cbn [nsub Number_R] in Hstep.
    rewrite S_INR. nra.
Qed.

(** X9: in exact arithmetic the time of vertex number [i] of a line
    returned by [trace] lies between 0 and
    [i * segmentLength / minSpeedThreshold]: a step takes at most the
    time needed at the slowest speed that does not stop the trace. *)
Theorem trace_times_bounded (x0 y0 : R) :
  let line := trace settings f x0 y0 cellSize in
  forall i, (i < length line)%nat ->
    0 <= time (nth i line noVertex)
      <= INR i * (segmentLength settings / minSpeedThreshold settings).
Proof.
  intros line i Hi.
  assert (Hchain : LocallySorted
            (fun v0 v1 : StreamLineVertex R =>
               0 < speedDivisor v0 v1
                 <= segmentLength settings / minSpeedThreshold settings) line).
  { apply trace_chain. intros. eapply traceStep_time_step. eassumption. }
  pose proof (@chain_accumulates _ line Hchain i Hi) as Hacc.
  destruct (trace_shape settings f cellSize x0 y0) as (more & Hline & _).
  fold line in Hline.
  assert (H0 : time (nth 0 line noVertex) = 0) by (rewrite Hline; reflexivity).
  rewrite H0 in Hacc. lra.
Qed.

(** X10: in exact arithmetic the speed attribute [1 / (t1 - t0)] that
    the mesh builder computes for a segment of a line returned by
    [trace] is at least [minSpeedThreshold / segmentLength]. *)
Theorem trace_segment_speed_bounded (x0 y0 : R) :
  let line := trace settings f x0 y0 cellSize in
  forall i, (1 <= i < length line)%nat ->
    minSpeedThreshold settings / segmentLength settings
    <= (ofZ 1 / speedDivisor (nth (i - 1) line noVertex) (nth i line noVertex))%num.
Proof.
  intros line i Hi.
  assert (Hstep : 0 < speedDivisor (nth (i - 1) line noVertex)
                                    (nth (S (i - 1)) line noVertex)
                    <= segmentLength settings / minSpeedThreshold settings).
  { apply (LocallySorted_nth
             (P := fun v0 v1 : StreamLineVertex R =>
                     0 < speedDivisor v0 v1
                       <= segmentLength settings / minSpeedThreshold settings)).
    - apply trace_chain. intros. eapply traceStep_time_step. eassumption.
    - lia. }
  replace (S (i - 1)) with i in Hstep by lia.
  set (dt := speedDivisor _ _) in *. cbn [ndiv ofZ Number_R].
  replace (minSpeedThreshold settings / segmentLength settings)
    with (1 / (segmentLength settings / minSpeedThreshold settings))
    by (field; lra).
  unfold Rdiv at 1 3. rewrite !Rmult_1_l.
  apply Rinv_le_contravar; lra.
Qed.

(** X11: in exact arithmetic the last vertex of a line returned by
    [trace] carries the largest time: the [totalTime] that the mesh
    builder records for the line bounds the time of each of its
    vertices, which is never negative. *)
Theorem trace_totalTime_is_max (x0 y0 : R) :
  let line := trace settings f x0 y0 cellSize in
  exists lastVertex,
    lastVertexOf line = Some lastVertex /\
    forall i, (i < length line)%nat ->
      0 <= time (nth i line noVertex) <= time lastVertex.
Proof.
  intros line.
  destruct (lastVertexOf_nonempty line) as [lv Hlv]; [apply trace_length|].
  exists lv. split; [exact Hlv|]. intros i Hi.
  pose proof (lastVertexOf_nth line Hlv) as Hnth.
  assert (Hchain : LocallySorted
            (fun v0 v1 : StreamLineVertex R => time v0 < time v1) line).
  { apply trace_chain. intros.
    eapply (traceStep_time_increases settings f cellSize segmentLength_pos
              minSpeed_pos). eassumption. }
  split.
  - destruct (trace_shape settings f cellSize x0 y0) as (more & Hline & _).
    fold line in Hline.
    destruct i as [|i]; [rewrite Hline; cbn; lra|].
    assert (H0 : time (nth 0 line noVertex) < time (nth (S i) line noVertex)).
    { apply (LocallySorted_nth_trans noVertex
               (P := fun v0 v1 : StreamLineVertex R => time v0 < time v1));
        [intros a b c; lra|exact Hchain|lia]. }
    assert (Hseed : time (nth 0 line noVertex) = 0)
      by (rewrite Hline; reflexivity).
    rewrite Hseed in H0. lra.
  - rewrite <- Hnth.
    destruct (Nat.eq_dec i (length line - 1)) as [->|Hne]; [lra|].
    apply Rlt_le.
    apply (LocallySorted_nth_trans noVertex
             (P := fun v0 v1 : StreamLineVertex R => time v0 < time v1));
      [intros a b c; lra|exact Hchain|lia].
Qed.

End TraceGeometry.

Lemma trace_segments_have_step_length_example :
  (0 < segmentLength (defaultSettings (num := R)))%R /\
  (0 < minSpeedThreshold (defaultSettings (num := R)))%R /\
  let line := trace (defaultSettings (num := R)) eastField 0%R 0%R (-2)%R in
  forall i, 1 <= i < length line ->
    normalDivisor (nth (i - 1) line noVertex) (nth i line noVertex)
    = (segmentLength (defaultSettings (num := R)) * Rabs (-2))%R.
Proof.
  assert (Hs : (0 < segmentLength (defaultSettings (num := R)))%R) by (cbn; lra).
  assert (Hm : (0 < minSpeedThreshold (defaultSettings (num := R)))%R) by (cbn; lra).
  split; [exact Hs|]. split; [exact Hm|].
  apply (@trace_segments_have_step_length defaultSettings eastField (-2)%R Hs Hm).
Defined.

Lemma trace_times_bounded_example :
  (0 < segmentLength (defaultSettings (num := R)))%R /\
  (0 < minSpeedThreshold (defaultSettings (num := R)))%R /\
  let line := trace (defaultSettings (num := R)) eastField 0%R 0%R 1%R in
  forall i, i < length line ->
    (0 <= time (nth i line noVertex)
       <= INR i * (segmentLength (defaultSettings (num := R)) /
                   minSpeedThreshold (defaultSettings (num := R))))%R.
Proof.
  assert (Hs : (0 < segmentLength (defaultSettings (num := R)))%R) by (cbn; lra).
  assert (Hm : (0 < minSpeedThreshold (defaultSettings (num := R)))%R) by (cbn; lra).
  split; [exact Hs|]. split; [exact Hm|].
  apply (@trace_times_bounded defaultSettings eastField 1%R Hs Hm).
Defined.

Lemma trace_segment_speed_bounded_example :
  (0 < segmentLength (defaultSettings (num := R)))%R /\
  (0 < minSpeedThreshold (defaultSettings (num := R)))%R /\
  let line := trace (defaultSettings (num := R)) eastField 0%R 0%R 1%R in
  forall i, 1 <= i < length line ->
    (minSpeedThreshold (defaultSettings (num := R)) /
     segmentLength (defaultSettings (num := R))
     <= ofZ 1 / speedDivisor (nth (i - 1) line noVertex) (nth i line noVertex))%R.
Proof.
  assert (Hs : (0 < segmentLength (defaultSettings (num := R)))%R) by (cbn; lra).
  assert (Hm : (0 < minSpeedThreshold (defaultSettings (num := R)))%R) by (cbn; lra).
  split; [exact Hs|]. split; [exact Hm|].
  apply (@trace_segment_speed_bounded defaultSettings eastField 1%R Hs Hm).
Defined.

Lemma trace_totalTime_is_max_example :
  (0 < segmentLength (defaultSettings (num := R)))%R /\
  (0 < minSpeedThreshold (defaultSettings (num := R)))%R /\
  let line := trace (defaultSettings (num := R)) eastField 0%R 0%R 1%R in
  exists lastVertex,
    lastVertexOf line = Some lastVertex /\
    forall i, i < length line ->
      (0 <= time (nth i line noVertex) <= time lastVertex)%R.
Proof.
  assert (Hs : (0 < segmentLength (defaultSettings (num := R)))%R) by (cbn; lra).
  assert (Hm : (0 < minSpeedThreshold (defaultSettings (num := R)))%R) by (cbn; lra).
  split; [exact Hs|]. split; [exact Hm|].
  apply (@trace_totalTime_is_max defaultSettings eastField 1%R Hs Hm).
Defined.

(** ** The edge normal of a segment *)

(** X12: in exact arithmetic, for two vertices at different positions
    the edge normal [(ex, ey)] that the mesh builder stores with the
    segment is a unit vector perpendicular to the segment, and the four
    vertices of the segment carry it with alternating sign:
    [e, -e, e, -e]. *)
Theorem segment_normal_unit_and_perpendicular (v0 v1 : StreamLineVertex R)
    (totalTime random : R) :
  position v1 <> position v0 ->
  let block := segmentVertexData v0 v1 totalTime random in
  let ex := nth 2 block 0%R in
  let ey := nth 3 block 0%R in
  (ex * ex + ey * ey = 1)%R /\
  (ex * (fst (position v1) - fst (position v0)) +
   ey * (snd (position v1) - snd (position v0)) = 0)%R /\
  (nth 11 block 0 = - ex /\ nth 12 block 0 = - ey)%R /\
  (nth 20 block 0 = ex /\ nth 21 block 0 = ey)%R /\
  (nth 29 block 0 = - ex /\ nth 30 block 0 = - ey)%R.
Proof.
  intros Hpos.
  destruct (divisors_zero_iff_degenerate v0 v1) as [_ [_ Hl]].
  specialize (Hl Hpos).
  unfold segmentVertexData. unfold normalDivisor in *.
  destruct v0 as [[x0 y0] t0], v1 as [[x1 y1] t1].
  cbn [position time fst snd] in *.
  set (a := (x1 - x0)%R) in *. set (b := (y1 - y0)%R) in *.
  cbn [nsub nmul nadd ndiv nneg Math_sqrt Number_R] in *.
  fold a b in Hl |- *.
  set (l := sqrt (a * a + b * b)) in *.
  assert (Hsq : (l * l = a * a + b * b)%R).
  { unfold l. apply sqrt_sqrt. nra. }
  cbv zeta. cbn [nth].
  repeat split; try reflexivity.
  - replace (- b / l * (- b / l) + a / l * (a / l))%R
      with ((a * a + b * b) / (l * l))%R by (field; exact Hl).
    rewrite <- Hsq. field. exact Hl.
  - field. exact Hl.
Qed.

Lemma segment_normal_example :
  ((3%R, 4%R) <> (0%R, 0%R)) /\
  let block := segmentVertexData
                 {| position := (0%R, 0%R); time := 0%R |}
                 {| position := (3%R, 4%R); time := 1%R |} 1%R 0%R in
  let ex := nth 2 block 0%R in
  let ey := nth 3 block 0%R in
  (ex * ex + ey * ey = 1)%R.
Proof.
  assert (H : (3%R, 4%R) <> (0%R, 0%R)).
  { intros E. injection E as E1 E2. lra. }
  split; [exact H|].
  apply (@segment_normal_unit_and_perpendicular
           {| position := (0%R, 0%R); time := 0%R |}
           {| position := (3%R, 4%R); time := 1%R |} 1%R 0%R H).
Defined.

(** ** wind/wind-shared *)

Section WindTrace.
Variable f : Field R.
Variable L : R.

Local Open Scope R_scope.

Lemma wind_traceLoop_agrees (n : nat) :
  forall (x y t d : R) (line : list (@Wind.Vertex R)),
  map withoutDistance (Wind.traceLoop f L n x y t d line) =
  traceLoop (windTraceSettings L) f 1 n x y t
            (map withoutDistance line).
Proof.
  induction n as [|n IH]; intros x y t d line; [reflexivity|].
  cbn [Wind.traceLoop traceLoop]. unfold traceStep.
  destruct (f x y) as [vx vy].
  cbn [speedScale minSpeedThreshold segmentLength windTraceSettings
       nmul nadd ndiv ofZ Math_sqrt nlt Number_R].
  rewrite !Rmult_1_r.
  destruct (Rltb (sqrt (vx * vx + vy * vy)) Wind.MIN_SPEED_THRESHOLD);
    [reflexivity|].
  rewrite IH, map_app. cbn [map withoutDistance Wind.position Wind.time].
  now rewrite !Rmult_1_r.
Qed.

Lemma wind_traceLoop_distance (n : nat) :
  forall (x y t d : R) (line : list (@Wind.Vertex R)) (k : nat),
  length line = S k -> d = INR k * L ->
  (forall i, (i < length line)%nat ->
     Wind.distance (nth i line Wind.noVertex) = INR i * L) ->
  forall i, (i < length (Wind.traceLoop f L n x y t d line))%nat ->
    Wind.distance (nth i (Wind.traceLoop f L n x y t d line)
                       Wind.noVertex)
    = INR i * L.
Proof.
  induction n as [|n IH]; intros x y t d line k Hlen Hd Hline; [exact Hline|].
  cbn [Wind.traceLoop]. destruct (f x y) as [vx vy].
  cbn [nmul nadd ndiv Math_sqrt nlt Number_R].
  destruct (Rltb _ _); [exact Hline|].
  apply (IH _ _ _ _ _ (S k)).
  - rewrite length_app, Hlen. cbn. lia.
  - rewrite Hd, S_INR. ring.
  - intros i Hi. rewrite length_app in Hi. cbn [length] in Hi.
    destruct (Nat.lt_ge_cases i (length line)) as [Hin|Hout].
    + rewrite app_nth1 by exact Hin. now apply Hline.
    + assert (i = length line) as -> by lia.
      rewrite app_nth2, Nat.sub_diag by lia. cbn [nth Wind.distance].
      rewrite Hlen, Hd, !S_INR. ring.
Qed.

(** X13: in exact arithmetic [trace] of wind/wind-shared is [trace] of
    flow/shared run with speed scale 1, cell size 1, 100 steps and the
    same threshold: the two lines hold the same positions and times,
    vertex for vertex; the wind variant only adds to vertex number
    [i] the distance [i * L]. *)
Theorem wind_trace_is_flow_trace (x0 y0 : R) :
  let line := Wind.trace f x0 y0 L in
  map withoutDistance line =
    trace (windTraceSettings L) f x0 y0 1 /\
  forall i, (i < length line)%nat ->
    Wind.distance (nth i line Wind.noVertex) = INR i * L.
Proof.
  intros line. split.
  - unfold line, Wind.trace, trace. cbv zeta.
    rewrite wind_traceLoop_agrees. unfold withoutDistance.
    cbn [map Wind.position Wind.time verticesPerLine
         windTraceSettings nmul ofZ Number_R].
    rewrite !Rmult_1_r. f_equal.
  - unfold line, Wind.trace. cbv zeta.
    intros i Hi.
    refine (@wind_traceLoop_distance 100 x0 y0 (ofZ 0) (ofZ 0) [_] 0%nat
              eq_refl _ _ i Hi).
    + cbn [ofZ Number_R INR]. ring.
    + intros j Hj. cbn [length] in Hj. assert (j = 0)%nat as -> by lia.
      cbn [nth Wind.distance ofZ Number_R INR]. ring.
Qed.

End WindTrace.

Section WindMesh.
Context {num : Type} {NumOps : Number num} {MathOps : MathLib num}
        {Rand : RandomSource num}.









End WindMesh.

(** ** apps/vortices and NaN field values *)

Section VortexGeometry.
Local Open Scope R_scope.

(** X15: in exact arithmetic the velocity of a vortex at a point other
    than its centre is perpendicular to the radius through the point,
    turns counter-clockwise (the cross product of radius and velocity
    is 10), and has magnitude 10 divided by the distance to the centre. *)
Theorem createVortex_rotates (cx cy x y : R) :
  (x, y) <> (cx, cy) ->
  let '(vx, vy) := createVortex (cx, cy) x y in
  let rx := x - cx in
  let ry := y - cy in
  rx * vx + ry * vy = 0 /\
  rx * vy - ry * vx = 10 /\
  sqrt (vx * vx + vy * vy) = 10 / sqrt (rx * rx + ry * ry).
Proof.
  intros Hne. unfold createVortex.
  cbn [fst snd nsub nadd nmul ndiv nneg ofZ Number_R]. cbv beta iota zeta.
  set (rx := x - cx). set (ry := y - cy).
  assert (Hd : 0 < rx * rx + ry * ry).
  { destruct (Req_dec rx 0) as [Hx|Hx].
    - destruct (Req_dec ry 0) as [Hy|Hy].
      + exfalso. apply Hne. unfold rx, ry in *. f_equal; lra.
      + nra.
    - nra. }
  clearbody rx ry. split; [field; lra|]. split; [field; lra|].
  replace (- (10) * ry / (rx * rx + ry * ry) * (- (10) * ry / (rx * rx + ry * ry)) +
           10 * rx / (rx * rx + ry * ry) * (10 * rx / (rx * rx + ry * ry)))
    with ((10 / sqrt (rx * rx + ry * ry)) * (10 / sqrt (rx * rx + ry * ry))).
  - apply sqrt_square. apply Rlt_le, Rdiv_lt_0_compat; [lra|now apply sqrt_lt_R0].
  - assert (Hs : sqrt (rx * rx + ry * ry) * sqrt (rx * rx + ry * ry)
                 = rx * rx + ry * ry) by (apply sqrt_sqrt; lra).
    assert (Hpos : 0 < sqrt (rx * rx + ry * ry)) by now apply sqrt_lt_R0.
    replace (10 / sqrt (rx * rx + ry * ry) * (10 / sqrt (rx * rx + ry * ry)))
      with (100 / (sqrt (rx * rx + ry * ry) * sqrt (rx * rx + ry * ry)))
      by (field; lra).
    rewrite Hs. field. lra.
Qed.

End VortexGeometry.

Lemma createVortex_rotates_example :
  (1, 0)%R <> (0, 0)%R /\
  let '(vx, vy) := createVortex (0, 0)%R 1%R 0%R in
  ((1 - 0) * vx + (0 - 0) * vy = 0 /\
   (1 - 0) * vy - (0 - 0) * vx = 10 /\
   sqrt (vx * vx + vy * vy) = 10 / sqrt ((1 - 0) * (1 - 0) + (0 - 0) * (0 - 0)))%R.
Proof.
  assert (Hne : (1, 0)%R <> (0, 0)%R).
  { intros Heq. injection Heq as Heq. lra. }
  split; [exact Hne|].
  exact (@createVortex_rotates 0%R 0%R 1%R 0%R Hne).
Defined.

Section NotANumber.
Local Open Scope float_scope.

Lemma Prim2SF_nan : Prim2SF nan = S754_nan.
Proof. reflexivity. Qed.

Lemma float_mul_nan_l (x : float) : nan * x = nan.
Proof.
  apply Prim2SF_inj. rewrite mul_spec, Prim2SF_nan. reflexivity.
Qed.

Lemma float_mul_nan_r (x : float) : x * nan = nan.
Proof.
  apply Prim2SF_inj. rewrite mul_spec, Prim2SF_nan.
  destruct (Prim2SF x); reflexivity.
Qed.

Lemma float_add_nan_l (x : float) : nan + x = nan.
Proof.
  apply Prim2SF_inj. rewrite add_spec, Prim2SF_nan. reflexivity.
Qed.

Lemma float_add_nan_r (x : float) : x + nan = nan.
Proof.
  apply Prim2SF_inj. rewrite add_spec, Prim2SF_nan.
  destruct (Prim2SF x); reflexivity.
Qed.

Lemma float_div_nan_r (x : float) : x / nan = nan.
Proof.
  apply Prim2SF_inj. rewrite div_spec, Prim2SF_nan.
  destruct (Prim2SF x); reflexivity.
Qed.

Lemma float_ltb_nan_l (x : float) : (nan <? x) = false.
Proof.
  rewrite ltb_spec, Prim2SF_nan. reflexivity.
Qed.

Lemma float_sub_diag (x : float) :
  is_finite x = true -> x - x = 0.
Proof.
  intros Hfin. apply Prim2SF_inj. rewrite sub_spec.
  unfold is_finite, is_nan, is_infinity in Hfin.
  rewrite !eqb_spec, abs_spec in Hfin.
  destruct (Prim2SF x) as [s|s| |s m e].
  - destruct s; reflexivity.
  - destruct s; discriminate Hfin.
  - discriminate Hfin.
  - unfold SF64sub, SFsub. rewrite Z.sub_diag. reflexivity.
Qed.

End NotANumber.

(** X16: in binary64 a vortex has no velocity at its own centre: for
    every finite centre both components there are NaN, the result of
    dividing zero by zero. *)
Theorem createVortex_centre_is_nan (c : float * float) :
  is_finite (fst c) = true -> is_finite (snd c) = true ->
  createVortex c (fst c) (snd c) = (nan, nan).
Proof.
  intros Hx Hy. unfold createVortex.
  cbn [nsub nadd nmul ndiv nneg Number_float]. cbv zeta.
  rewrite (float_sub_diag _ Hx), (float_sub_diag _ Hy). reflexivity.
Qed.

Lemma createVortex_centre_is_nan_example :
  is_finite (fst (ofZ (-98), ofZ 39)) = true /\
  is_finite (snd (ofZ (-98) : float, ofZ 39 : float)) = true /\
  createVortex (ofZ (-98), ofZ 39) (fst (ofZ (-98) : float, ofZ 39 : float))
               (snd (ofZ (-98) : float, ofZ 39 : float)) = (nan, nan).
Proof.
  assert (Hx : is_finite (fst (ofZ (-98) : float, ofZ 39 : float)) = true)
    by reflexivity.
  assert (Hy : is_finite (snd (ofZ (-98) : float, ofZ 39 : float)) = true)
    by reflexivity.
  split; [exact Hx|]. split; [exact Hy|].
  exact (@createVortex_centre_is_nan (ofZ (-98), ofZ 39) Hx Hy).
Defined.

Section TraceNaN.
Variable settings : Settings float.
Variable f : Field float.
Variable cellSize : float.

Lemma traceStep_nan (x y t : float) :
  fst (f x y) = nan \/ snd (f x y) = nan ->
  traceStep settings f x y t = Advanced nan nan nan nan.
Proof.
  intros Hnan. unfold traceStep. destruct (f x y) as [vx vy].
  cbn [fst snd] in Hnan.
  cbn [nadd nmul ndiv Math_sqrt nlt Number_float]. cbv zeta.
  assert (Hv : PrimFloat.sqrt
                 (vx * speedScale settings * (vx * speedScale settings) +
                  vy * speedScale settings * (vy * speedScale settings))%float
               = nan).
  { destruct Hnan as [-> | ->].
    - now rewrite !float_mul_nan_l, float_add_nan_l.
    - now rewrite !float_mul_nan_l, float_add_nan_r. }
  rewrite Hv, float_ltb_nan_l, !float_div_nan_r, !float_mul_nan_l,
    !float_add_nan_r.
  reflexivity.
Qed.

Lemma traceLoop_nan (n : nat) :
  fst (f nan nan) = nan \/ snd (f nan nan) = nan ->
  forall acc : list (StreamLineVertex float),
  traceLoop settings f cellSize n nan nan nan acc
  = acc ++ repeat {| position := (nan, nan); time := nan |} n.
Proof.
  intros Hnan. induction n as [|n IH]; intros acc.
  - cbn. now rewrite app_nil_r.
  - cbn [traceLoop repeat]. rewrite (traceStep_nan _ _ _ Hnan), IH.
    rewrite <- app_assoc. cbn [app nmul Number_float].
    now rewrite float_mul_nan_l.
Qed.

(** X17: in binary64 a NaN field value never stops a line: NaN is not
    below the speed threshold, so the round divides by it and moves on
    with NaN position and time.  When the field is NaN at the seed and
    at a NaN position, [trace] returns the seed vertex followed by
    [verticesPerLine] vertices whose coordinates and time are all NaN. *)
Theorem trace_does_not_stop_at_nan (x0 y0 : float) :
  fst (f x0 y0) = nan \/ snd (f x0 y0) = nan ->
  fst (f nan nan) = nan \/ snd (f nan nan) = nan ->
  trace settings f x0 y0 cellSize
  = vertexAt cellSize x0 y0 (ofZ 0)
    :: repeat {| position := (nan, nan); time := nan |}
              (verticesPerLine settings).
Proof.
  intros Hseed Hnan. unfold trace, vertexAt. cbv zeta.
  destruct (verticesPerLine settings) as [|n]; [reflexivity|].
  cbn [traceLoop repeat]. rewrite (traceStep_nan _ _ _ Hseed).
  rewrite (traceLoop_nan _ Hnan). cbn [app nmul Number_float].
  now rewrite float_mul_nan_l.
Qed.

End TraceNaN.

Lemma trace_does_not_stop_at_nan_example :
  (fst (vortex1 (num := float) (ofZ (-98)) (ofZ 39)) = nan \/
   snd (vortex1 (num := float) (ofZ (-98)) (ofZ 39)) = nan) /\
  (fst (vortex1 (num := float) nan nan) = nan \/
   snd (vortex1 (num := float) nan nan) = nan) /\
  trace defaultSettings vortex1 (ofZ (-98)) (ofZ 39) (ofZ 1)
  = vertexAt (ofZ 1) (ofZ (-98)) (ofZ 39) (ofZ 0)
    :: repeat {| position := (nan, nan); time := nan |}
              (verticesPerLine (defaultSettings (num := float))).
Proof.
  assert (Hseed : fst (vortex1 (num := float) (ofZ (-98)) (ofZ 39)) = nan \/
                  snd (vortex1 (num := float) (ofZ (-98)) (ofZ 39)) = nan)
    by (left; reflexivity).
  assert (Hnan : fst (vortex1 (num := float) nan nan) = nan \/
                 snd (vortex1 (num := float) nan nan) = nan)
    by (left; reflexivity).
  split; [exact Hseed|]. split; [exact Hnan|].
  exact (@trace_does_not_stop_at_nan defaultSettings vortex1 (ofZ 1)
           (ofZ (-98)) (ofZ 39) Hseed Hnan).
Defined.

(** X18: the field of the demo adds the three vortices, and in binary64
    a NaN of one of them is not masked by the other two: wherever one
    vortex has no velocity, and so at the centre of each, the field is
    NaN in both components. *)
Theorem windVectorField_nan (x y : float) :
  vortex1 x y = (nan, nan) \/ vortex2 x y = (nan, nan) \/
  vortex3 x y = (nan, nan) ->
  windVectorField x y = (nan, nan).
Proof.
  intros Hnan. unfold windVectorField. cbv zeta.
  cbn [nadd Number_float].
  destruct Hnan as [-> | [-> | ->]]; cbn [fst snd];
    now rewrite ?float_add_nan_l, ?float_add_nan_r, ?float_add_nan_l.
Qed.

Lemma windVectorField_nan_example :
  (vortex1 (num := float) (ofZ (-78)) (ofZ 39) = (nan, nan) \/
   vortex2 (num := float) (ofZ (-78)) (ofZ 39) = (nan, nan) \/
   vortex3 (num := float) (ofZ (-78)) (ofZ 39) = (nan, nan)) /\
  windVectorField (num := float) (ofZ (-78)) (ofZ 39) = (nan, nan).
Proof.
  assert (Hnan : vortex1 (num := float) (ofZ (-78)) (ofZ 39) = (nan, nan) \/
                 vortex2 (num := float) (ofZ (-78)) (ofZ 39) = (nan, nan) \/
                 vortex3 (num := float) (ofZ (-78)) (ofZ 39) = (nan, nan))
    by (right; left; reflexivity).
  split; [exact Hnan|].
  exact (@windVectorField_nan (ofZ (-78)) (ofZ 39) Hnan).
Defined.

